(** * Sonarr extension: instance registry, API access layer, polling

    A shallow embedding of the multi-instance access layer of the Sonarr
    launcher extension:

    - [config.ts]            : [getSonarrInstances], [getActiveSonarrInstance]
    - [hooks/useSonarrAPI.ts]: [useSonarrAPI], [searchSeries], [addSeries],
                               [removeQueueItem]
    - [utils.ts]             : [getDownloadProgress]
    - [download-queue.tsx]   : the auto-refresh effect of [DownloadQueue]

    JavaScript strings are modelled as [string] (byte sequences, UTF-8),
    optional values as [option], thrown values and promise rejections as the
    [Throw] completion, and side effects (network requests, console output,
    toasts) as a trace of events accumulated in program order. *)

From Stdlib Require Import String Ascii List Bool ZArith QArith Qround Lia Lqa.
From Stdlib Require Import DecimalString.
Import ListNotations.

Local Open Scope string_scope.
Local Open Scope list_scope.

(** ** JavaScript values and primitives *)

Module Js.

(** A thrown value.  Everything the modelled code throws itself is an
    [Error] object; [NonError] stands for any other thrown value, which the
    handlers test for with [error instanceof Error]. *)
Inductive Thrown : Type :=
| ErrorObj (message : string)
| NonError.

(** How an evaluation finishes: normally, or by throwing.  For an [async]
    function [Throw] is the rejection of the returned promise. *)
Inductive Completion (A : Type) : Type :=
| Return (a : A)
| Throw (e : Thrown).
Arguments Return {A} a.
Arguments Throw {A} e.

(** Truthiness of a possibly undefined string: [undefined] and the empty
    string are falsy. *)
Definition truthy (s : option string) : bool :=
  match s with
  | Some (String _ _) => true
  | _ => false
  end.

(** Truthiness of a possibly undefined boolean. *)
Definition truthy_bool (b : option bool) : bool :=
  match b with
  | Some true => true
  | _ => false
  end.

(** The string held by a value already known to be truthy. *)
Definition str (s : option string) : string :=
  match s with
  | Some v => v
  | None => ""
  end.

Definition slash : ascii := "/"%char.

(** [s.replace(/\/$/, "")]: the pattern has no [g] or [m] flag, so it
    matches at most once, a single slash that is the last character. *)
Fixpoint replace_trailing_slash (s : string) : string :=
  match s with
  | EmptyString => EmptyString
  | String c EmptyString => if Ascii.eqb c slash then EmptyString else s
  | String c rest => String c (replace_trailing_slash rest)
  end.

(** [s.endsWith(t)], used to state properties of URLs. *)
Definition ends_with (s t : string) : bool :=
  let n := String.length s in
  let m := String.length t in
  (m <=? n)%nat && String.eqb (substring (n - m) m s) t.

(** [s.includes(t)] *)
Fixpoint includes (s t : string) : bool :=
  prefix t s ||
  match s with
  | EmptyString => false
  | String _ rest => includes rest t
  end.

(** Template-literal conversion of an integral number (identifiers, years
    and status codes).  It prints every digit, as the conversion does for
    the integers a number holds exactly (magnitudes up to [2 ^ 53]); beyond
    them the built-in pads with zeros and, from [10 ^ 21] on, switches to
    exponent notation. *)
Definition show_Z (z : Z) : string := NilZero.string_of_int (Z.to_int z).

(** Template-literal conversion of a boolean. *)
Definition show_bool (b : bool) : string := if b then "true" else "false".

End Js.
Import Js.

(** ** types.ts *)

Record SonarrInstance : Type := {
  name : string;
  url : string;
  apiKey : string;
  isDefault : bool
}.

(** ** config.ts *)

(** The preference values.  Every string may be missing at run time, also
    the ones the interface declares as required. *)
Record Preferences : Type := {
  primaryInstanceName : option string;
  primaryInstanceUrl : option string;
  primaryInstanceApiKey : option string;
  enableSecondaryInstance : option bool;
  secondaryInstanceName : option string;
  secondaryInstanceUrl : option string;
  secondaryInstanceApiKey : option string;
  activeInstance : option string
}.

Definition primary_incomplete_error : Thrown :=
  ErrorObj "Primary Sonarr instance configuration is incomplete".

Definition no_instances_error : Thrown :=
  ErrorObj "No Sonarr instances configured".

(** The object pushed first by [getSonarrInstances]. *)
Definition primary_instance (preferences : Preferences) : SonarrInstance :=
  {| name := str (primaryInstanceName preferences);
     url := replace_trailing_slash (str (primaryInstanceUrl preferences));
     apiKey := str (primaryInstanceApiKey preferences);
     isDefault := true |}.

(** The object pushed second, when the secondary is enabled and complete. *)
Definition secondary_instance (preferences : Preferences) : SonarrInstance :=
  {| name := str (secondaryInstanceName preferences);
     url := replace_trailing_slash (str (secondaryInstanceUrl preferences));
     apiKey := str (secondaryInstanceApiKey preferences);
     isDefault := false |}.

Definition getSonarrInstances (preferences : Preferences)
  : Completion (list SonarrInstance) :=
  if negb (truthy (primaryInstanceName preferences))
     || negb (truthy (primaryInstanceUrl preferences))
     || negb (truthy (primaryInstanceApiKey preferences))
  then Throw primary_incomplete_error
  else
    let instances := [primary_instance preferences] in
    let instances :=
      if truthy_bool (enableSecondaryInstance preferences)
         && truthy (secondaryInstanceName preferences)
         && truthy (secondaryInstanceUrl preferences)
         && truthy (secondaryInstanceApiKey preferences)
      then instances ++ [secondary_instance preferences]
      else instances in
    Return instances.

(** [preferences.activeInstance === "secondary"] *)
Definition active_is_secondary (preferences : Preferences) : bool :=
  match activeInstance preferences with
  | Some a => String.eqb a "secondary"
  | None => false
  end.

(** Indexing [instances[i]] yields [undefined] out of range, here [None]. *)
Definition getActiveSonarrInstance (preferences : Preferences)
  : Completion (option SonarrInstance) :=
  match getSonarrInstances preferences with
  | Throw e => Throw e
  | Return instances =>
      if active_is_secondary preferences
         && truthy_bool (enableSecondaryInstance preferences)
         && (1 <? List.length instances)%nat
      then Return (nth_error instances 1)
      else if (0 <? List.length instances)%nat
      then Return (nth_error instances 0)
      else Throw no_instances_error
  end.

(** Endpoint concatenation as every request of the layer does it. *)
Definition api_url (instance : SonarrInstance) (endpoint : string) : string :=
  url instance ++ "/api/v3" ++ endpoint.

(** ** types.ts: records read by the API layer

    Only the fields that the modelled functions read are kept; numbers that
    are identifiers, years or HTTP status codes are integers. *)

Module Season.
Record t : Type := {
  seasonNumber : Z;
  monitored : bool
}.
End Season.

Module SeriesImage.
Record t : Type := {
  coverType : string;
  url : string;
  remoteUrl : option string
}.
End SeriesImage.

Module SeriesLookup.
Record t : Type := {
  title : string;
  sortTitle : string;
  status : string;
  overview : string;
  network : option string;
  airTime : option string;
  images : list SeriesImage.t;
  seasons : list Season.t;
  year : Z;
  tvdbId : Z;
  imdbId : option string;
  titleSlug : string
}.
End SeriesLookup.

Module QueueItem.
Record t : Type := {
  id : Z;
  title : string;
  size : Q;
  sizeleft : Q;
  status : string
}.
End QueueItem.

(** ** hooks/useSonarrAPI.ts: requests, responses and effects *)

Inductive Method : Type := GET | POST | DELETE.

(** The object literal [payload] of [addSeries]. *)
Module Payload.
Record addOptions_t : Type := {
  searchForMissingEpisodes : bool;
  searchForCutoffUnmetEpisodes : bool
}.
Record t : Type := {
  title : string;
  sortTitle : string;
  status : string;
  overview : string;
  network : option string;
  airTime : option string;
  images : list SeriesImage.t;
  seasons : list Season.t;
  year : Z;
  path : string;
  qualityProfileId : Z;
  languageProfileId : Z;
  seasonFolder : bool;
  monitored : bool;
  tvdbId : Z;
  imdbId : option string;
  titleSlug : string;
  seriesType : string;
  tags : list Z;
  addOptions : addOptions_t
}.
End Payload.

(** The arguments of one [fetch] call.  [JSON.stringify payload] is kept as
    the payload itself. *)
Module Request.
Record t : Type := {
  method : Method;
  target : string;
  headers : list (string * string);
  body : option Payload.t
}.
End Request.

(** A parsed JSON body, as far as [Array.isArray] tells values apart; the
    elements of an array are kept as they were received, since the declared
    element type is not checked at run time. *)
Inductive Json : Type :=
| JArray (elements : list string)
| JOther (raw : string).

(** What a received response offers: [status], [statusText], and the
    outcomes of [await response.text()] and [await response.json()]. *)
Module Response.
Record t : Type := {
  status : Z;
  statusText : string;
  text : Completion string;
  json : Completion Json
}.
(** [response.ok]: the status is in the range 200-299. *)
Definition ok (r : t) : bool := (200 <=? status r)%Z && (status r <=? 299)%Z.
End Response.

(** [await fetch(...)] either rejects (transport failure) or resolves to a
    response, whatever its status. *)
Inductive FetchResult : Type :=
| Rejects (e : Thrown)
| Responds (r : Response.t).

(** The network as the layer sees it. *)
Definition Network : Type := Request.t -> FetchResult.

Inductive ToastStyle : Type := Success | Failure.

Module Toast.
Record t : Type := {
  style : ToastStyle;
  title : string;
  message : string
}.
End Toast.

(** Observable side effects, in the order the program performs them. *)
Inductive Event : Type :=
| Fetch (r : Request.t)
| ConsoleError (label : string) (e : Thrown)
| ShowToast (t : Toast.t).

(** An effectful computation: the events it performed and how it ended. *)
Definition Eff (A : Type) : Type := (list Event * Completion A)%type.

Definition ret {A} (a : A) : Eff A := ([], Return a).

Definition throw {A} (e : Thrown) : Eff A := ([], Throw e).

Definition bind {A B} (m : Eff A) (k : A -> Eff B) : Eff B :=
  match m with
  | (t, Return a) => let (t', r) := k a in (t ++ t', r)
  | (t, Throw e) => (t, Throw e)
  end.

(** [try { body } catch (error) { handler }] *)
Definition try_catch {A} (body : Eff A) (handler : Thrown -> Eff A) : Eff A :=
  match body with
  | (t, Return a) => (t, Return a)
  | (t, Throw e) => let (t', r) := handler e in (t ++ t', r)
  end.

Definition lift {A} (c : Completion A) : Eff A := ([], c).

Definition fetch (net : Network) (r : Request.t) : Eff Response.t :=
  match net r with
  | Rejects e => ([Fetch r], Throw e)
  | Responds resp => ([Fetch r], Return resp)
  end.

Definition console_error (label : string) (e : Thrown) : Eff unit :=
  ([ConsoleError label e], Return tt).

Definition showToast (t : Toast.t) : Eff unit := ([ShowToast t], Return tt).

Notation "x <- m ;; k" := (bind m (fun x => k))
  (at level 61, m at next level, right associativity).
Notation "m ;;; k" := (bind m (fun _ => k))
  (at level 61, right associativity).

(** [error instanceof Error ? error.message : "Unknown error"] *)
Definition message_of (e : Thrown) : string :=
  match e with
  | ErrorObj m => m
  | NonError => "Unknown error"
  end.

Definition invalid_instance_error : Thrown :=
  ErrorObj "Invalid Sonarr instance configuration".

(** [!instance?.url || !instance?.apiKey], the guard that opens every
    one-shot operation.  Past the guard the instance is present, so the
    [None] branch that the operations below need for typing is never
    taken. *)
Definition invalid_instance (instance : option SonarrInstance) : bool :=
  negb (truthy (option_map url instance))
  || negb (truthy (option_map apiKey instance)).

Definition http_error (response : Response.t) (detail : string) : Thrown :=
  ErrorObj ("HTTP " ++ show_Z (Response.status response) ++ ": " ++ detail).

(** *** encodeURIComponent

    On a UTF-8 byte string: every byte is percent-encoded in upper-case
    hexadecimal, except letters, digits and [- _ . ! ~ * ' ( )].  The
    built-in throws a [URIError] on text with an unpaired surrogate, which
    has no UTF-8 form: the function is that of well-formed text. *)

Definition uri_unreserved (c : ascii) : bool :=
  let n := nat_of_ascii c in
  ((65 <=? n) && (n <=? 90) || (97 <=? n) && (n <=? 122)
   || (48 <=? n) && (n <=? 57))%nat
  || existsb (Ascii.eqb c)
       ["-"; "_"; "."; "!"; "~"; "*"; "'"; "("; ")"]%char.

Definition hex_digit (n : nat) : ascii :=
  if (n <? 10)%nat then ascii_of_nat (48 + n) else ascii_of_nat (55 + n).

Fixpoint encodeURIComponent (s : string) : string :=
  match s with
  | EmptyString => EmptyString
  | String c rest =>
      if uri_unreserved c
      then String c (encodeURIComponent rest)
      else
        let n := nat_of_ascii c in
        String "%" (String (hex_digit (n / 16)) (String (hex_digit (n mod 16))
          (encodeURIComponent rest)))
  end.

(** *** searchSeries *)

Definition searchSeries_request (instance : SonarrInstance) (query : string)
  : Request.t :=
  {| Request.method := GET;
     Request.target :=
       url instance ++ "/api/v3/series/lookup?term=" ++ encodeURIComponent query;
     Request.headers :=
       [("X-Api-Key", apiKey instance); ("Content-Type", "application/json")];
     Request.body := None |}.

Definition searchSeries (net : Network) (instance : option SonarrInstance)
  (query : string) : Eff (list string) :=
  if invalid_instance instance then throw invalid_instance_error
  else
    match instance with
    | None => throw invalid_instance_error
    | Some instance =>
        try_catch
          (response <- fetch net (searchSeries_request instance query) ;;
           if negb (Response.ok response)
           then throw (http_error response (Response.statusText response))
           else
             result <- lift (Response.json response) ;;
             ret (match result with
                  | JArray elements => elements
                  | JOther _ => []
                  end))
          (fun error =>
             console_error "Series search error:" error ;;;
             showToast
               {| Toast.style := Failure;
                  Toast.title := "Search Failed";
                  Toast.message :=
                    "Failed to search series: " ++ message_of error |} ;;;
             ret [])
    end.

(** *** addSeries *)

(** [monitorSeasons || series.seasons]: an array, also an empty one, is
    truthy. *)
Definition or_seasons (monitorSeasons : option (list Season.t))
  (fallback : list Season.t) : list Season.t :=
  match monitorSeasons with
  | Some chosen => chosen
  | None => fallback
  end.

(** A parameter with a default value [d]. *)
Definition default_to {A} (d : A) (arg : option A) : A :=
  match arg with
  | Some v => v
  | None => d
  end.

Definition addSeries_payload (series : SeriesLookup.t) (qualityProfileId : Z)
  (rootFolderPath : string) (languageProfileId : Z) (seriesType : string)
  (seasonFolder monitored searchOnAdd : bool)
  (monitorSeasons : option (list Season.t)) : Payload.t :=
  {| Payload.title := SeriesLookup.title series;
     Payload.sortTitle := SeriesLookup.sortTitle series;
     Payload.status := SeriesLookup.status series;
     Payload.overview := SeriesLookup.overview series;
     Payload.network := SeriesLookup.network series;
     Payload.airTime := SeriesLookup.airTime series;
     Payload.images := SeriesLookup.images series;
     Payload.seasons := or_seasons monitorSeasons (SeriesLookup.seasons series);
     Payload.year := SeriesLookup.year series;
     Payload.path := rootFolderPath ++ "/" ++ SeriesLookup.title series;
     Payload.qualityProfileId := qualityProfileId;
     Payload.languageProfileId := languageProfileId;
     Payload.seasonFolder := seasonFolder;
     Payload.monitored := monitored;
     Payload.tvdbId := SeriesLookup.tvdbId series;
     Payload.imdbId := SeriesLookup.imdbId series;
     Payload.titleSlug := SeriesLookup.titleSlug series;
     Payload.seriesType := seriesType;
     Payload.tags := [];
     Payload.addOptions :=
       {| Payload.searchForMissingEpisodes := searchOnAdd;
          Payload.searchForCutoffUnmetEpisodes := false |} |}.

Definition addSeries (net : Network) (instance : option SonarrInstance)
  (series : SeriesLookup.t) (qualityProfileId : Z) (rootFolderPath : string)
  (languageProfileId : Z) (seriesType : string) (seasonFolder : bool)
  (monitored searchOnAdd : option bool)
  (monitorSeasons : option (list Season.t)) : Eff Json :=
  let monitored := default_to true monitored in
  let searchOnAdd := default_to true searchOnAdd in
  if invalid_instance instance then throw invalid_instance_error
  else
    match instance with
    | None => throw invalid_instance_error
    | Some instance =>
        try_catch
          (let payload :=
             addSeries_payload series qualityProfileId rootFolderPath
               languageProfileId seriesType seasonFolder monitored searchOnAdd
               monitorSeasons in
           response <- fetch net
             {| Request.method := POST;
                Request.target := url instance ++ "/api/v3/series";
                Request.headers :=
                  [("X-Api-Key", apiKey instance);
                   ("Content-Type", "application/json")];
                Request.body := Some payload |} ;;
           if negb (Response.ok response)
           then
             errorBody <- lift (Response.text response) ;;
             throw (http_error response errorBody)
           else
             addedSeries <- lift (Response.json response) ;;
             showToast
               {| Toast.style := Success;
                  Toast.title := "Series Added";
                  Toast.message :=
                    SeriesLookup.title series ++ " ("
                    ++ show_Z (SeriesLookup.year series) ++ ") added to "
                    ++ name instance |} ;;;
             ret addedSeries)
          (fun error =>
             console_error "Add series error:" error ;;;
             showToast
               {| Toast.style := Failure;
                  Toast.title := "Failed to Add Series";
                  Toast.message :=
                    "Could not add " ++ SeriesLookup.title series ++ ": "
                    ++ message_of error |} ;;;
             throw error)
    end.

(** *** removeQueueItem *)

Definition removeQueueItem_request (instance : SonarrInstance) (id : Z)
  (removeFromClient blocklist : bool) : Request.t :=
  {| Request.method := DELETE;
     Request.target :=
       url instance ++ "/api/v3/queue/" ++ show_Z id ++ "?removeFromClient="
       ++ show_bool removeFromClient ++ "&blocklist=" ++ show_bool blocklist;
     Request.headers := [("X-Api-Key", apiKey instance)];
     Request.body := None |}.

Definition removeQueueItem (net : Network) (instance : option SonarrInstance)
  (id : Z) (removeFromClient blocklist : option bool) : Eff unit :=
  let removeFromClient := default_to true removeFromClient in
  let blocklist := default_to true blocklist in
  if invalid_instance instance then throw invalid_instance_error
  else
    match instance with
    | None => throw invalid_instance_error
    | Some instance =>
        try_catch
          (response <- fetch net
             (removeQueueItem_request instance id removeFromClient blocklist) ;;
           if negb (Response.ok response)
           then throw (http_error response (Response.statusText response))
           else
             showToast
               {| Toast.style := Success;
                  Toast.title := "Queue Item Removed";
                  Toast.message := "Item removed from download queue" |})
          (fun error =>
             console_error "Remove queue item error:" error ;;;
             showToast
               {| Toast.style := Failure;
                  Toast.title := "Failed to Remove Item";
                  Toast.message := message_of error |} ;;;
             throw error)
    end.

(** *** useSonarrAPI

    The hook delegates to [useFetch] of the utilities library, which is not
    part of this repository.  One call of the library hook is represented by
    what it makes observable: the requests it issues and the state it hands
    back.  The [mutate] function of the result is the refresh of the polling
    section below. *)

Module UseFetch.
Record options : Type := {
  headers : list (string * string);
  execute : bool;
  onError : Thrown -> list Event;
  onData : option (Json -> list Event)
}.
Record result : Type := {
  data : option Json;
  error : option Thrown;
  isLoading : bool
}.
Definition hook : Type := string -> options -> list Request.t * result.
End UseFetch.

(** The optional third argument of [useSonarrAPI]. *)
Module ApiOptions.
Record t : Type := {
  execute : option bool;
  onError : option (Thrown -> list Event);
  onData : option (Json -> list Event)
}.
End ApiOptions.

(** [a || b] on strings. *)
Definition or_str (a : option string) (b : string) : string :=
  if truthy a then str a else b.

(** [error.message] as a template-literal part. *)
Definition error_message (e : Thrown) : string :=
  match e with
  | ErrorObj m => m
  | NonError => "undefined"
  end.

(** [options?.execute !== false] *)
Definition execute_not_false (options : option ApiOptions.t) : bool :=
  match options with
  | Some o =>
      match ApiOptions.execute o with
      | Some false => false
      | _ => true
      end
  | None => true
  end.

Definition shouldExecute (instance : option SonarrInstance)
  (options : option ApiOptions.t) : bool :=
  (truthy (option_map url instance) && truthy (option_map apiKey instance))
  && execute_not_false options.

Definition useSonarrAPI_onError (instance : option SonarrInstance)
  (options : option ApiOptions.t) (error : Thrown) : list Event :=
  [ConsoleError
     ("Sonarr API Error (" ++ or_str (option_map name instance) "Unknown"
      ++ "):") error;
   ShowToast
     {| Toast.style := Failure;
        Toast.title := "Sonarr Error";
        Toast.message :=
          "Failed to connect to " ++ or_str (option_map name instance) "Sonarr"
          ++ ": " ++ error_message error |}]
  ++ match options with
     | Some o =>
         match ApiOptions.onError o with
         | Some f => f error
         | None => []
         end
     | None => []
     end.

Definition useSonarrAPI (useFetch : UseFetch.hook)
  (instance : option SonarrInstance) (endpoint : string)
  (options : option ApiOptions.t) : list Request.t * UseFetch.result :=
  let url :=
    match instance with
    | Some i => if truthy (Some (url i)) then api_url i endpoint else ""
    | None => ""
    end in
  useFetch url
    {| UseFetch.headers :=
         [("X-Api-Key", or_str (option_map apiKey instance) "");
          ("Content-Type", "application/json")];
       UseFetch.execute := shouldExecute instance options;
       UseFetch.onError := useSonarrAPI_onError instance options;
       UseFetch.onData :=
         match options with
         | Some o => ApiOptions.onData o
         | None => None
         end |}.

(** A [useFetch] that issues one GET request when told to execute and none
    otherwise, starting in the loading state exactly when it executes. *)
Definition useFetch_first_render : UseFetch.hook :=
  fun url options =>
    if UseFetch.execute options
    then
      ([{| Request.method := GET;
           Request.target := url;
           Request.headers := UseFetch.headers options;
           Request.body := None |}],
       {| UseFetch.data := None; UseFetch.error := None;
          UseFetch.isLoading := true |})
    else
      ([],
       {| UseFetch.data := None; UseFetch.error := None;
          UseFetch.isLoading := false |}).

(** ** utils.ts: getDownloadProgress

    JavaScript numbers are binary64 values.  Each arithmetic operation is
    the exact rational operation followed by the rounding [fl] to a
    representable number; [Math.round] is exact (nearest integer, ties
    towards positive infinity). *)

Definition Math_round (x : Q) : Q := inject_Z (Qfloor (x + (1 # 2))).

Definition getDownloadProgress (fl : Q -> Q) (item : QueueItem.t) : Q :=
  if Qeq_bool (QueueItem.size item) 0 then 0
  else
    let progress :=
      fl (fl (fl (QueueItem.size item - QueueItem.sizeleft item)
              / QueueItem.size item) * 100) in
    fl (Math_round (fl (progress * 100)) / 100).

(** Exact arithmetic: no rounding of intermediate results. *)
Definition exact : Q -> Q := fun x => x.

(** Rounding to [places] decimal places, as the specification words it:
    scale, round to the nearest integer, scale back. *)
Definition round_to (places : nat) (x : Q) : Q :=
  Math_round (x * inject_Z (10 ^ Z.of_nat places))
  / inject_Z (10 ^ Z.of_nat places).

(** Binary64 arithmetic: the nearest multiple of the quantum of [x], ties
    going to the even multiple.  The quantum is [2 ^ (e - 52)] for
    [2 ^ e <= |x| < 2 ^ (e + 1)], and [2 ^ -1074] in the subnormal range.
    Overflow to infinity is outside the model. *)
Definition round_half_even (a : Z) (b : positive) : Z :=
  let q := (a / Z.pos b)%Z in
  let r := (a mod Z.pos b)%Z in
  match (2 * r ?= Z.pos b)%Z with
  | Lt => q
  | Gt => (q + 1)%Z
  | Eq => if Z.even q then q else (q + 1)%Z
  end.

Definition fl64 (x : Q) : Q :=
  let a := Z.abs (Qnum x) in
  let d := Z.pos (Qden x) in
  if (a =? 0)%Z then 0
  else
    let e0 := (Z.log2 a - Z.log2 d)%Z in
    let below :=
      if (0 <=? e0)%Z then (a <? d * 2 ^ e0)%Z
      else (a * 2 ^ (- e0) <? d)%Z in
    let e := if below then (e0 - 1)%Z else e0 in
    let qe := Z.max (e - 52) (-1074) in
    let k :=
      if (0 <=? qe)%Z then round_half_even a (Z.to_pos (d * 2 ^ qe))
      else round_half_even (a * 2 ^ (- qe)) (Qden x) in
    let m := (Z.sgn (Qnum x) * k)%Z in
    if (0 <=? qe)%Z then inject_Z (m * 2 ^ qe)
    else Qred (m # Z.to_pos (2 ^ (- qe))).

(** ** download-queue.tsx: the auto-refresh effect *)

(** [queueResponse?.records || []] *)
Definition queueItems (queueResponse : option (list QueueItem.t))
  : list QueueItem.t :=
  match queueResponse with
  | Some records => records
  | None => []
  end.

Definition hasActiveDownloads (queueItems : list QueueItem.t) : bool :=
  existsb (fun item => String.eqb (QueueItem.status item) "downloading")
    queueItems.

(** What a timer or an action calls. *)
Inductive Callback : Type := CallMutate.

(** A registered [setInterval]: its callback and its period in ms. *)
Record Interval : Type := {
  callback : Callback;
  period : Z
}.

(** The body of the effect: the interval it registers, if any.  The cleanup
    it returns clears exactly that interval. *)
Definition autoRefreshEffect (queueItems : list QueueItem.t)
  : option Interval :=
  if hasActiveDownloads queueItems
  then Some {| callback := CallMutate; period := 5000 |}
  else None.

Inductive PollState : Type :=
| Idle
| Polling (timer : Interval).

(** The mounted view: the response last rendered and the timer state. *)
Record View : Type := {
  queueResponse : option (list QueueItem.t);
  poll : PollState
}.

(** What happens to the view.  [Render] is a render in which the
    dependencies of the effect changed (a render with unchanged dependencies
    leaves the timer alone); [Tick] is the interval firing; [Refresh] is the
    manual Refresh action; [Unmount] dismisses the view. *)
Inductive Input : Type :=
| Render (response : option (list QueueItem.t))
| Tick
| Refresh
| Unmount.

Inductive Output : Type :=
| Mutate
| SetInterval (i : Interval)
| ClearInterval (i : Interval).

Definition run_callback (c : Callback) : list Output :=
  match c with
  | CallMutate => [Mutate]
  end.

(** The cleanup of the previous effect run. *)
Definition cleanup (p : PollState) : list Output :=
  match p with
  | Idle => []
  | Polling i => [ClearInterval i]
  end.

Definition start (e : option Interval) : PollState * list Output :=
  match e with
  | Some i => (Polling i, [SetInterval i])
  | None => (Idle, [])
  end.

(** One step of the mounted view; [None] when the input cannot occur (a
    tick without a registered interval) or the view is gone. *)
Definition step (v : View) (i : Input) : option (option View * list Output) :=
  match i with
  | Render response =>
      let (p, out) := start (autoRefreshEffect (queueItems response)) in
      Some (Some {| queueResponse := response; poll := p |},
            cleanup (poll v) ++ out)
  | Tick =>
      match poll v with
      | Polling t => Some (Some v, run_callback (callback t))
      | Idle => None
      end
  | Refresh => Some (Some v, run_callback CallMutate)
  | Unmount => Some (None, cleanup (poll v))
  end.

(** The view before its first effect run. *)
Definition unmounted_view : View := {| queueResponse := None; poll := Idle |}.

(** Run a sequence of inputs; [None] when some input cannot occur. *)
Fixpoint run (v : View) (inputs : list Input)
  : option (option View * list Output) :=
  match inputs with
  | [] => Some (Some v, [])
  | i :: rest =>
      match step v i with
      | Some (Some v', out) =>
          match run v' rest with
          | Some (r, out') => Some (r, out ++ out')
          | None => None
          end
      | Some (None, out) =>
          match rest with
          | [] => Some (None, out)
          | _ => None
          end
      | None => None
      end
  end.

(** ** hooks/useSonarrAPI.ts: the remaining one-shot operations *)

(** *** testConnection *)

Definition testConnection_request (instance : SonarrInstance) : Request.t :=
  {| Request.method := GET;
     Request.target := url instance ++ "/api/v3/system/status";
     Request.headers :=
       [("X-Api-Key", apiKey instance); ("Content-Type", "application/json")];
     Request.body := None |}.

Definition testConnection (net : Network) (instance : option SonarrInstance)
  : Eff bool :=
  if invalid_instance instance then ret false
  else
    match instance with
    | None => ret false
    | Some instance =>
        try_catch
          (response <- fetch net (testConnection_request instance) ;;
           ret (Response.ok response))
          (fun error =>
             console_error "Connection test failed:" error ;;;
             ret false)
    end.

(** *** getRootFolders, getQualityProfiles, getLanguageProfiles

    The three functions differ in the endpoint, the label of the console
    message and the fields the arrow function picks from each element.  The
    elements of a parsed array are kept as received, so the arrow function is
    a parameter [pick]; it throws a [TypeError] on an element that has no
    properties ([null]).  Calling [map] on a parsed value that is not an
    array throws a [TypeError] as well, whose exact message is not kept. *)

Definition not_a_function (what : string) : Thrown :=
  ErrorObj (what ++ ".map is not a function").

(** [array.map(pick)]: the first element on which [pick] throws ends the
    mapping. *)
Fixpoint map_throwing {A} (pick : string -> Completion A)
  (elements : list string) : Completion (list A) :=
  match elements with
  | [] => Return []
  | e :: rest =>
      match pick e with
      | Throw err => Throw err
      | Return a =>
          match map_throwing pick rest with
          | Throw err => Throw err
          | Return l => Return (a :: l)
          end
      end
  end.

Definition list_request (instance : SonarrInstance) (endpoint : string)
  : Request.t :=
  {| Request.method := GET;
     Request.target := url instance ++ "/api/v3" ++ endpoint;
     Request.headers :=
       [("X-Api-Key", apiKey instance); ("Content-Type", "application/json")];
     Request.body := None |}.

(** The common body of the three functions. *)
Definition get_list {A} (endpoint label what : string)
  (pick : string -> Completion A) (net : Network)
  (instance : option SonarrInstance) : Eff (list A) :=
  if invalid_instance instance then throw invalid_instance_error
  else
    match instance with
    | None => throw invalid_instance_error
    | Some instance =>
        try_catch
          (response <- fetch net (list_request instance endpoint) ;;
           if negb (Response.ok response)
           then throw (http_error response (Response.statusText response))
           else
             parsed <- lift (Response.json response) ;;
             match parsed with
             | JArray elements => lift (map_throwing pick elements)
             | JOther _ => throw (not_a_function what)
             end)
          (fun error => console_error label error ;;; ret [])
    end.

Definition getRootFolders {A} (pick : string -> Completion A)
  : Network -> option SonarrInstance -> Eff (list A) :=
  get_list "/rootfolder" "Failed to get root folders:" "rootFolders" pick.

Definition getQualityProfiles {A} (pick : string -> Completion A)
  : Network -> option SonarrInstance -> Eff (list A) :=
  get_list "/qualityprofile" "Failed to get quality profiles:" "profiles" pick.

Definition getLanguageProfiles {A} (pick : string -> Completion A)
  : Network -> option SonarrInstance -> Eff (list A) :=
  get_list "/languageprofile" "Failed to get language profiles:" "profiles"
    pick.

(** ** hooks/useInstanceManager.ts *)

Module InstanceManager.
Record t : Type := {
  currentInstance : option SonarrInstance;
  isLoading : bool;
  availableInstances : list SonarrInstance
}.
End InstanceManager.

(** [availableInstances]: the memoised list, empty when the configuration
    fails to resolve. *)
Definition availableInstances_of (preferences : Preferences)
  : list SonarrInstance :=
  match getSonarrInstances preferences with
  | Return instances => instances
  | Throw _ => []
  end.

(** The state of the first render, before the effect runs. *)
Definition useInstanceManager_initial (preferences : Preferences)
  : InstanceManager.t :=
  {| InstanceManager.currentInstance := None;
     InstanceManager.isLoading := true;
     InstanceManager.availableInstances := availableInstances_of preferences |}.

(** [loadDefaultInstance], run once by the mount effect. *)
Definition loadDefaultInstance (preferences : Preferences)
  (st : InstanceManager.t) : list Event * InstanceManager.t :=
  match getActiveSonarrInstance preferences with
  | Return instance =>
      ([],
       {| InstanceManager.currentInstance := instance;
          InstanceManager.isLoading := false;
          InstanceManager.availableInstances :=
            InstanceManager.availableInstances st |})
  | Throw error =>
      ([ConsoleError "Failed to load default instance:" error],
       {| InstanceManager.currentInstance := None;
          InstanceManager.isLoading := false;
          InstanceManager.availableInstances :=
            InstanceManager.availableInstances st |})
  end.

Definition switchToInstance (st : InstanceManager.t)
  (instance : SonarrInstance) : InstanceManager.t :=
  {| InstanceManager.currentInstance := Some instance;
     InstanceManager.isLoading := InstanceManager.isLoading st;
     InstanceManager.availableInstances :=
       InstanceManager.availableInstances st |}.

(** The hook once its mount effect has run. *)
Definition useInstanceManager (preferences : Preferences)
  : list Event * InstanceManager.t :=
  loadDefaultInstance preferences (useInstanceManager_initial preferences).

(** ** download-queue.tsx: removing an item *)

(** [handleRemoveItem]; [confirmed] is the answer of the confirmation alert.
    The result lists the calls to [mutate] the handler makes. *)
Definition handleRemoveItem (net : Network)
  (selectedInstance : option SonarrInstance) (item : QueueItem.t)
  (confirmed : bool) (removeFromClient blocklist : option bool)
  : Eff (list Output) :=
  let removeFromClient := default_to true removeFromClient in
  let blocklist := default_to true blocklist in
  if confirmed
  then
    try_catch
      (removeQueueItem net selectedInstance (QueueItem.id item)
         (Some removeFromClient) (Some blocklist) ;;;
       ret (run_callback CallMutate))
      (fun error =>
         console_error "Failed to remove queue item:" error ;;;
         ret [])
  else ret [].

(** ** search-series.tsx: the debounced search *)

Module SearchState.
Record t : Type := {
  searchResults : list string;
  isSearching : bool
}.
End SearchState.

(** The callback of the 500 ms timeout.  [is_blank s] is [!s.trim()]. *)
Definition debounced_search (is_blank : string -> bool) (net : Network)
  (searchText : string) (selectedInstance : option SonarrInstance)
  (st : SearchState.t) : list Event * SearchState.t :=
  if is_blank searchText || invalid_instance selectedInstance
  then
    ([], {| SearchState.searchResults := [];
            SearchState.isSearching := SearchState.isSearching st |})
  else
    match searchSeries net selectedInstance searchText with
    | (events, Return results) =>
        (events, {| SearchState.searchResults := results;
                    SearchState.isSearching := false |})
    | (events, Throw error) =>
        (events ++ [ConsoleError "Search error:" error],
         {| SearchState.searchResults := [];
            SearchState.isSearching := false |})
    end.

(** ** hooks/useSonarrAPI.ts: endpoints of the tracked reads *)

(** The byte serialiser of [URLSearchParams.toString]: letters, digits and
    [* - . _] stay, a space becomes [+], every other byte is
    percent-encoded. *)
Definition form_unreserved (c : ascii) : bool :=
  let n := nat_of_ascii c in
  ((65 <=? n) && (n <=? 90) || (97 <=? n) && (n <=? 122)
   || (48 <=? n) && (n <=? 57))%nat
  || existsb (Ascii.eqb c) ["*"; "-"; "."; "_"]%char.

Fixpoint form_urlencode (s : string) : string :=
  match s with
  | EmptyString => EmptyString
  | String c rest =>
      if form_unreserved c then String c (form_urlencode rest)
      else if Ascii.eqb c " " then String "+" (form_urlencode rest)
      else
        let n := nat_of_ascii c in
        String "%" (String (hex_digit (n / 16)) (String (hex_digit (n mod 16))
          (form_urlencode rest)))
  end.

(** [params.set(key, value)]: replaces the first pair with that key and
    drops the others, or appends. *)
Fixpoint params_set (key value : string) (params : list (string * string))
  : list (string * string) :=
  match params with
  | [] => [(key, value)]
  | (k, v) :: rest =>
      if String.eqb k key
      then (key, value)
           :: filter (fun kv => negb (String.eqb (fst kv) key)) rest
      else (k, v) :: params_set key value rest
  end.

(** [params.toString()] *)
Definition params_toString (params : list (string * string)) : string :=
  String.concat "&"
    (map (fun kv : string * string =>
            (form_urlencode (fst kv) ++ "=" ++ form_urlencode (snd kv))%string)
       params).

(** [`/path${params.toString() ? `?${params.toString()}` : ""}`] *)
Definition with_query (path : string) (params : list (string * string))
  : string :=
  if truthy (Some (params_toString params))
  then path ++ "?" ++ params_toString params
  else path.

Definition useCalendar_endpoint (start end_ : option string) : string :=
  let params := [] in
  let params :=
    if truthy start then params_set "start" (str start) params else params in
  let params :=
    if truthy end_ then params_set "end" (str end_) params else params in
  let params := params_set "includeSeries" "true" params in
  let params := params_set "includeEpisodeFile" "true" params in
  let params := params_set "includeEpisodeImages" "true" params in
  let params := params_set "unmonitored" "true" params in
  with_query "/calendar" params.

Definition useCalendar (useFetch : UseFetch.hook)
  (instance : option SonarrInstance) (start end_ : option string)
  : list Request.t * UseFetch.result :=
  useSonarrAPI useFetch instance (useCalendar_endpoint start end_) None.

(** [if (seriesId)]: [undefined] and [0] are falsy. *)
Definition truthy_Z (z : option Z) : bool :=
  match z with
  | Some v => negb (v =? 0)%Z
  | None => false
  end.

Definition useHistory_endpoint (seriesId : option Z) : string :=
  let params := [] in
  let params :=
    match seriesId with
    | Some v =>
        if truthy_Z seriesId then params_set "seriesId" (show_Z v) params
        else params
    | None => params
    end in
  with_query "/history" params.

Definition useHistory (useFetch : UseFetch.hook)
  (instance : option SonarrInstance) (seriesId : option Z)
  : list Request.t * UseFetch.result :=
  useSonarrAPI useFetch instance (useHistory_endpoint seriesId) None.

Definition useQueue (useFetch : UseFetch.hook)
  (instance : option SonarrInstance) : list Request.t * UseFetch.result :=
  useSonarrAPI useFetch instance
    "/queue?includeSeries=true&includeEpisode=true" None.

(** ** utils.ts: text and numbers *)

(** [truncateText(text, maxLength = 100)].  [length] and [substring] count
    UTF-16 code units, so the text is taken as the sequence of its code
    units here.  [substring(0, n)] clamps a negative [n] to 0 and an [n]
    beyond the end to the length. *)
Definition utf16 : Type := list N.

(** The code units of ASCII text. *)
Definition units_of_ascii (s : string) : utf16 :=
  map N_of_ascii (list_ascii_of_string s).

Definition truncateText (text : utf16) (maxLength : option Z) : utf16 :=
  let maxLength := default_to 100%Z maxLength in
  if (Z.of_nat (List.length text) <=? maxLength)%Z then text
  else firstn (Z.to_nat (maxLength - 3)) text ++ units_of_ascii "...".

(** [s.split(sep)] for a one-character separator. *)
Fixpoint split (sep : ascii) (s : string) : list string :=
  match s with
  | EmptyString => [EmptyString]
  | String c rest =>
      if Ascii.eqb c sep then EmptyString :: split sep rest
      else
        match split sep rest with
        | first :: others => String c first :: others
        | [] => [String c EmptyString]
        end
  end.

(** [n > 0] on the result of [parseInt], [None] being [NaN]. *)
Definition positive (n : option Z) : bool :=
  match n with
  | Some v => (0 <? v)%Z
  | None => false
  end.

(** [n === 0] *)
Definition is_zero (n : option Z) : bool :=
  match n with
  | Some v => (v =? 0)%Z
  | None => false
  end.

(** Template-literal conversion of a parsed number. *)
Definition show_number (n : option Z) : string :=
  match n with
  | Some v => show_Z v
  | None => "NaN"
  end.

(** [formatTimeLeft]; [parseInt s] is [parseInt(s, 10)]. *)
Definition formatTimeLeft (parseInt : string -> option Z)
  (timeleft : option string) : string :=
  if negb (truthy timeleft) then "Unknown"
  else
    let parts := split ":" (str timeleft) in
    if negb (List.length parts =? 3)%nat then str timeleft
    else
      let hours := parseInt (nth 0 parts "") in
      let minutes := parseInt (nth 1 parts "") in
      let seconds := parseInt (nth 2 parts "") in
      let result : list string := [] in
      let result :=
        if positive hours then result ++ [(show_number hours ++ "h")%string]
        else result in
      let result :=
        if positive minutes
        then result ++ [(show_number minutes ++ "m")%string]
        else result in
      let result :=
        if is_zero hours && positive seconds
        then result ++ [(show_number seconds ++ "s")%string] else result in
      if (0 <? List.length result)%nat then String.concat " " result
      else "< 1m".

(** [parseInt(s, 10)] on ASCII input: leading blanks, an optional sign,
    then the longest run of decimal digits; [NaN] when there is none. *)
Definition is_digit (c : ascii) : bool :=
  let n := nat_of_ascii c in ((48 <=? n) && (n <=? 57))%nat.

Definition is_blank_char (c : ascii) : bool :=
  let n := nat_of_ascii c in ((9 <=? n) && (n <=? 13) || (n =? 32))%nat.

Fixpoint skip_blanks (s : string) : string :=
  match s with
  | String c rest => if is_blank_char c then skip_blanks rest else s
  | EmptyString => EmptyString
  end.

Fixpoint digits_value (acc : option Z) (s : string) : option Z :=
  match s with
  | String c rest =>
      if is_digit c
      then digits_value
             (Some (default_to 0%Z acc * 10
                    + Z.of_nat (nat_of_ascii c - 48))%Z) rest
      else acc
  | EmptyString => acc
  end.

Definition parseInt10 (s : string) : option Z :=
  match skip_blanks s with
  | String "-" rest => option_map Z.opp (digits_value None rest)
  | String "+" rest => digits_value None rest
  | t => digits_value None t
  end.

(** [getSeriesPoster]: [series.images?.find(...)], then
    [posterImage?.remoteUrl || posterImage?.url]. *)
Definition find_cover (coverType : string) (images : list SeriesImage.t)
  : option SeriesImage.t :=
  find (fun img => String.eqb (SeriesImage.coverType img) coverType) images.

Definition remote_or_local (image : option SeriesImage.t) : option string :=
  match image with
  | None => None
  | Some img =>
      if truthy (SeriesImage.remoteUrl img) then SeriesImage.remoteUrl img
      else Some (SeriesImage.url img)
  end.

Definition getSeriesPoster (series : SeriesLookup.t) : option string :=
  let posterImage := find_cover "poster" (SeriesLookup.images series) in
  remote_or_local posterImage.

Definition getSeriesBanner (series : SeriesLookup.t) : option string :=
  let bannerImage := find_cover "banner" (SeriesLookup.images series) in
  remote_or_local bannerImage.

(** [calculateSeriesProgress], on the [statistics] of the series. *)
Module SeriesStatistics.
Record t : Type := {
  episodeFileCount : Q;
  totalEpisodeCount : Q
}.
End SeriesStatistics.

Definition calculateSeriesProgress (fl : Q -> Q)
  (statistics : option SeriesStatistics.t) : Q :=
  match statistics with
  | None => 0
  | Some st =>
      if Qeq_bool (SeriesStatistics.totalEpisodeCount st) 0 then 0
      else
        Math_round
          (fl (fl (SeriesStatistics.episodeFileCount st
                   / SeriesStatistics.totalEpisodeCount st) * 100))
  end.

(** ** Vocabulary of the statements, and sample inputs *)

Definition primary_complete (p : Preferences) : bool :=
  truthy (primaryInstanceName p) && truthy (primaryInstanceUrl p)
  && truthy (primaryInstanceApiKey p).

Definition secondary_complete (p : Preferences) : bool :=
  truthy (secondaryInstanceName p) && truthy (secondaryInstanceUrl p)
  && truthy (secondaryInstanceApiKey p).

(** The configuration marks the secondary both enabled and active. *)
Definition secondary_marked (p : Preferences) : bool :=
  truthy_bool (enableSecondaryInstance p) && active_is_secondary p.

(** The number of slashes at the end of a string. *)
Fixpoint trailing_slashes (s : string) : nat :=
  match s with
  | EmptyString => 0
  | String c rest =>
      match rest with
      | EmptyString => if Ascii.eqb c slash then 1 else 0
      | _ =>
          let n := trailing_slashes rest in
          if (n =? String.length rest)%nat && Ascii.eqb c slash
          then S n else n
      end
  end.

(** Both instances configured, the secondary enabled and selected. *)
Definition prefs_two_instances : Preferences :=
  {| primaryInstanceName := Some "Main";
     primaryInstanceUrl := Some "http://localhost:8989/";
     primaryInstanceApiKey := Some "k1";
     enableSecondaryInstance := Some true;
     secondaryInstanceName := Some "4K";
     secondaryInstanceUrl := Some "http://nas:8990";
     secondaryInstanceApiKey := Some "k2";
     activeInstance := Some "secondary" |}.

(** The secondary enabled and selected, but without a URL. *)
Definition prefs_secondary_without_url : Preferences :=
  {| primaryInstanceName := Some "Main";
     primaryInstanceUrl := Some "http://localhost:8989";
     primaryInstanceApiKey := Some "k1";
     enableSecondaryInstance := Some true;
     secondaryInstanceName := Some "4K";
     secondaryInstanceUrl := None;
     secondaryInstanceApiKey := Some "k2";
     activeInstance := Some "secondary" |}.

(** A primary URL that ends in two slashes. *)
Definition prefs_double_slash : Preferences :=
  {| primaryInstanceName := Some "Main";
     primaryInstanceUrl := Some "http://localhost:8989//";
     primaryInstanceApiKey := Some "k1";
     enableSecondaryInstance := None;
     secondaryInstanceName := None;
     secondaryInstanceUrl := None;
     secondaryInstanceApiKey := None;
     activeInstance := None |}.

(** A search fails: the transport fails, the status is not a success, or
    the body does not parse. *)
Definition search_fails (net : Network) (instance : SonarrInstance)
  (query : string) : bool :=
  match net (searchSeries_request instance query) with
  | Rejects _ => true
  | Responds r =>
      negb (Response.ok r)
      || match Response.json r with
         | Throw _ => true
         | Return _ => false
         end
  end.

Definition failure_toast (title message : string) : Toast.t :=
  {| Toast.style := Failure; Toast.title := title; Toast.message := message |}.

Definition instance_main : SonarrInstance :=
  {| name := "Main"; url := "http://localhost:8989"; apiKey := "k1";
     isDefault := true |}.

(** A server that answers every request with 200 and an empty array. *)
Definition net_ok : Network :=
  fun _ =>
    Responds {| Response.status := 200; Response.statusText := "OK";
                Response.text := Return "[]";
                Response.json := Return (JArray []) |}.

(** A server that answers every request with 500. *)
Definition net_500 : Network :=
  fun _ =>
    Responds {| Response.status := 500;
                Response.statusText := "Internal Server Error";
                Response.text := Return "boom";
                Response.json := Throw (ErrorObj "Unexpected token b") |}.

Definition series_example : SeriesLookup.t :=
  {| SeriesLookup.title := "Example";
     SeriesLookup.sortTitle := "example";
     SeriesLookup.status := "continuing";
     SeriesLookup.overview := "";
     SeriesLookup.network := None;
     SeriesLookup.airTime := None;
     SeriesLookup.images := [];
     SeriesLookup.seasons :=
       [{| Season.seasonNumber := 1; Season.monitored := true |}];
     SeriesLookup.year := 2020;
     SeriesLookup.tvdbId := 42;
     SeriesLookup.imdbId := None;
     SeriesLookup.titleSlug := "example" |}.

(** The five-second timer whose callback is the refresh. *)
Definition refresh_timer : Interval :=
  {| callback := CallMutate; period := 5000 |}.


Definition item_downloading : QueueItem.t :=
  {| QueueItem.id := 7; QueueItem.title := "Example S01E01";
     QueueItem.size := 1000; QueueItem.sizeleft := 250;
     QueueItem.status := "downloading" |}.

Definition item_completed : QueueItem.t :=
  {| QueueItem.id := 8; QueueItem.title := "Example S01E02";
     QueueItem.size := 1000; QueueItem.sizeleft := 0;
     QueueItem.status := "completed" |}.


(** The requests and the toasts of a trace, in order. *)
Fixpoint fetches (trace : list Event) : list Request.t :=
  match trace with
  | [] => []
  | Fetch r :: rest => r :: fetches rest
  | _ :: rest => fetches rest
  end.

Fixpoint toasts (trace : list Event) : list Toast.t :=
  match trace with
  | [] => []
  | ShowToast t :: rest => t :: toasts rest
  | _ :: rest => toasts rest
  end.

(** A request goes to the versioned API of an instance and carries its
    key. *)
Definition addressed_to (instance : SonarrInstance) (r : Request.t) : Prop :=
  prefix (url instance ++ "/api/v3/") (Request.target r) = true
  /\ In ("X-Api-Key", apiKey instance) (Request.headers r).

(** A one-shot operation contacts the server at most once: not at all
    without a usable instance, and otherwise exactly once, at that
    instance. *)
Definition one_request_to (instance : option SonarrInstance)
  (trace : list Event) : Prop :=
  match instance with
  | Some inst =>
      if invalid_instance instance then fetches trace = []
      else exists r, fetches trace = [r] /\ addressed_to inst r
  | None => fetches trace = []
  end.

(** The server answers a request with a success status. *)
Definition accepted (net : Network) (r : Request.t) : bool :=
  match net r with
  | Responds response => Response.ok response
  | Rejects _ => false
  end.

(** A lookup result with a banner first and two posters. *)
Definition series_with_images : SeriesLookup.t :=
  {| SeriesLookup.title := "Example";
     SeriesLookup.sortTitle := "example";
     SeriesLookup.status := "continuing";
     SeriesLookup.overview := "";
     SeriesLookup.network := None;
     SeriesLookup.airTime := None;
     SeriesLookup.images :=
       [{| SeriesImage.coverType := "banner";
           SeriesImage.url := "/banner.jpg";
           SeriesImage.remoteUrl := Some "https://img/banner.jpg" |};
        {| SeriesImage.coverType := "poster";
           SeriesImage.url := "/poster.jpg";
           SeriesImage.remoteUrl := Some "" |};
        {| SeriesImage.coverType := "poster";
           SeriesImage.url := "/poster2.jpg";
           SeriesImage.remoteUrl := Some "https://img/poster2.jpg" |}];
     SeriesLookup.seasons := [];
     SeriesLookup.year := 2020;
     SeriesLookup.tvdbId := 42;
     SeriesLookup.imdbId := None;
     SeriesLookup.titleSlug := "example" |}.

Definition statistics_half : SeriesStatistics.t :=
  {| SeriesStatistics.episodeFileCount := 5;
     SeriesStatistics.totalEpisodeCount := 8 |}.

(** The number of registered intervals after a sequence of outputs,
    starting from [live]; [None] when an interval is cleared that is not
    registered. *)
Fixpoint timers_after (live : nat) (out : list Output) : option nat :=
  match out with
  | [] => Some live
  | SetInterval _ :: rest => timers_after (S live) rest
  | ClearInterval _ :: rest =>
      match live with
      | O => None
      | S n => timers_after n rest
      end
  | Mutate :: rest => timers_after live rest
  end.

Definition timers_of (v : option View) : nat :=
  match v with
  | Some {| poll := Polling _ |} => 1
  | _ => 0
  end.

(** The flags every calendar request carries. *)
Definition calendar_flags : string :=
  "includeSeries=true&includeEpisodeFile=true&includeEpisodeImages=true&unmonitored=true".

(** Two complete instances that were given the same name. *)
Definition prefs_same_name : Preferences :=
  {| primaryInstanceName := Some "Sonarr";
     primaryInstanceUrl := Some "http://localhost:8989";
     primaryInstanceApiKey := Some "k1";
     enableSecondaryInstance := Some true;
     secondaryInstanceName := Some "Sonarr";
     secondaryInstanceUrl := Some "http://nas:8990";
     secondaryInstanceApiKey := Some "k2";
     activeInstance := None |}.

(** A server that answers every request with 200 and a JSON object. *)
Definition net_object : Network :=
  fun _ =>
    Responds {| Response.status := 200; Response.statusText := "OK";
                Response.text := Return "{}";
                Response.json := Return (JOther "{}") |}.

(** A bound on the error of one binary64 operation whose exact result is
    at most [2 ^ 14] in magnitude: [2 ^ -39], the spacing of the largest
    such values. *)
Definition op_error : Q := 1 # 549755813888.

(** The value that [Math.round] is applied to in [getDownloadProgress]. *)
Definition scaled_progress (fl : Q -> Q) (item : QueueItem.t) : Q :=
  fl (fl (fl (fl (QueueItem.size item - QueueItem.sizeleft item)
              / QueueItem.size item) * 100) * 100).

(** The percentage in exact arithmetic. *)
Definition exact_percentage (item : QueueItem.t) : Q :=
  ((QueueItem.size item - QueueItem.sizeleft item) / QueueItem.size item)
  * 100.

(** 97 of 160 bytes downloaded: exactly 60.625 percent. *)
Definition item_tie : QueueItem.t :=
  {| QueueItem.id := 9; QueueItem.title := "Example S01E03";
     QueueItem.size := 160; QueueItem.sizeleft := 63;
     QueueItem.status := "downloading" |}.

(** A one-shot operation that may give up before it contacts the server:
    no request without a usable instance, and otherwise at most one, at
    that instance. *)
Definition at_most_one_request_to (instance : option SonarrInstance)
  (trace : list Event) : Prop :=
  (invalid_instance instance = true -> fetches trace = [])
  /\ (fetches trace = []
      \/ exists inst r,
           instance = Some inst
           /\ invalid_instance instance = false
           /\ fetches trace = [r] /\ addressed_to inst r).

(** * Properties *)

(** ** The definitions on sample inputs *)

Example replace_trailing_slash_one :
  replace_trailing_slash "http://localhost:8989/" = "http://localhost:8989".
Proof. reflexivity. Qed.

Example replace_trailing_slash_none :
  replace_trailing_slash "http://localhost:8989" = "http://localhost:8989".
Proof. reflexivity. Qed.

Example replace_trailing_slash_inner :
  replace_trailing_slash "http://nas/sonarr" = "http://nas/sonarr".
Proof. reflexivity. Qed.

Example trailing_slashes_three : trailing_slashes "a/b///" = 3%nat.
Proof. reflexivity. Qed.

Example getSonarrInstances_two :
  getSonarrInstances prefs_two_instances
  = Return [{| name := "Main"; url := "http://localhost:8989";
               apiKey := "k1"; isDefault := true |};
            {| name := "4K"; url := "http://nas:8990";
               apiKey := "k2"; isDefault := false |}].
Proof. reflexivity. Qed.

Example encodeURIComponent_query :
  encodeURIComponent "the office (us)?" = "the%20office%20(us)%3F".
Proof. reflexivity. Qed.

Example searchSeries_ok :
  searchSeries net_ok (Some instance_main) "dark"
  = ([Fetch {| Request.method := GET;
               Request.target :=
                 "http://localhost:8989/api/v3/series/lookup?term=dark";
               Request.headers :=
                 [("X-Api-Key", "k1"); ("Content-Type", "application/json")];
               Request.body := None |}],
     Return []).
Proof. reflexivity. Qed.

Example removeQueueItem_ok :
  removeQueueItem net_ok (Some instance_main) 7 (Some false) None
  = ([Fetch {| Request.method := DELETE;
               Request.target :=
                 "http://localhost:8989/api/v3/queue/7?removeFromClient=false&blocklist=true";
               Request.headers := [("X-Api-Key", "k1")];
               Request.body := None |};
      ShowToast {| Toast.style := Success;
                   Toast.title := "Queue Item Removed";
                   Toast.message := "Item removed from download queue" |}],
     Return tt).
Proof. reflexivity. Qed.

Example getDownloadProgress_third :
  getDownloadProgress exact
    {| QueueItem.id := 1; QueueItem.title := ""; QueueItem.size := 3;
       QueueItem.sizeleft := 2; QueueItem.status := "downloading" |}
  == 3333 # 100.
Proof. reflexivity. Qed.

Example getDownloadProgress_binary64 :
  getDownloadProgress fl64 item_downloading == 75
  /\ getDownloadProgress fl64
       {| QueueItem.id := 1; QueueItem.title := ""; QueueItem.size := 3;
          QueueItem.sizeleft := 2; QueueItem.status := "downloading" |}
     == fl64 (3333 # 100)
  /\ Qle_bool
       (exact_percentage item_tie - (1 # 200) - (1 # 1000000000))
       (getDownloadProgress fl64 item_tie) = true.
Proof. repeat split; vm_compute; reflexivity. Qed.

Example fl64_samples :
  fl64 (1 # 10) == 3602879701896397 # 36028797018963968
  /\ fl64 (9007199254740993 # 1) == 9007199254740992 # 1
  /\ fl64 (- (1 # 3)) == - (6004799503160661 # 18014398509481984)
  /\ fl64 100 == 100.
Proof. repeat split; vm_compute; reflexivity. Qed.

Example polling_run :
  run unmounted_view
    [Render None; Render (Some [item_downloading]); Tick; Refresh;
     Render (Some [item_completed]); Unmount]
  = Some (None,
          [SetInterval refresh_timer; Mutate; Mutate;
           ClearInterval refresh_timer]).
Proof. reflexivity. Qed.

Example polling_tick_when_idle :
  run unmounted_view [Render (Some [item_completed]); Tick] = None.
Proof. reflexivity. Qed.

(** ** Instance registry *)

Lemma replace_trailing_slash_snoc (s : string) :
  replace_trailing_slash (s ++ "/") = s.
Proof.
  induction s as [|c s IH]; [reflexivity|].
  change ((String c s ++ "/")%string) with (String c (s ++ "/")).
  simpl. rewrite IH.
  destruct s; reflexivity.
Qed.

Lemma trailing_slashes_le (s : string) :
  (trailing_slashes s <= String.length s)%nat.
Proof.
  induction s as [|c s IH]; simpl; [lia|].
  destruct s as [|d s]; [destruct (Ascii.eqb c slash); simpl; lia|].
  destruct ((trailing_slashes (String d s) =? String.length (String d s))%nat
            && Ascii.eqb c slash); lia.
Qed.

Lemma replace_trailing_slash_removes_one (s : string) :
  trailing_slashes (replace_trailing_slash s) = Nat.pred (trailing_slashes s)
  /\ String.length (replace_trailing_slash s)
     = (String.length s - Nat.min 1 (trailing_slashes s))%nat.
Proof.
  induction s as [|c s IH]; [split; reflexivity|].
  destruct s as [|d s].
  - simpl. destruct (Ascii.eqb c slash) eqn:E; simpl; rewrite ?E;
      split; reflexivity.
  - destruct IH as [IHt IHl].
    pose proof (trailing_slashes_le (String d s)) as Hle.
    change (replace_trailing_slash (String c (String d s)))
      with (String c (replace_trailing_slash (String d s))).
    remember (String d s) as r eqn:Er.
    remember (replace_trailing_slash r) as r' eqn:Er'.
    assert (Hlen : String.length r = S (String.length s)) by (subst r; reflexivity).
    cbn [String.length].
    assert (Hts : trailing_slashes (String c r)
                  = if (trailing_slashes r =? String.length r)%nat
                       && Ascii.eqb c slash
                    then S (trailing_slashes r) else trailing_slashes r).
    { subst r. reflexivity. }
    rewrite Hts.
    destruct r' as [|e r''].
    + cbn [String.length trailing_slashes] in IHl, IHt |- *.
      assert (Ht1 : trailing_slashes r = 1%nat) by lia.
      assert (Hl1 : String.length r = 1%nat) by lia.
      rewrite Ht1, Hl1. simpl.
      destruct (Ascii.eqb c slash); simpl; split; lia.
    + assert (Hts' : trailing_slashes (String c (String e r''))
                  = if (trailing_slashes (String e r'')
                        =? String.length (String e r''))%nat
                       && Ascii.eqb c slash
                    then S (trailing_slashes (String e r''))
                    else trailing_slashes (String e r'')) by reflexivity.
      rewrite Hts'. rewrite IHt, IHl.
      destruct (Ascii.eqb c slash); rewrite ?andb_true_r, ?andb_false_r.
      * destruct (Nat.eqb_spec (trailing_slashes r) (String.length r)) as [E|E];
        destruct (Nat.eqb_spec (Nat.pred (trailing_slashes r))
                    (String.length r - Nat.min 1 (trailing_slashes r)))
          as [E'|E']; split; try lia.
        all: cbn [String.length] in *; lia.
      * split; lia.
Qed.

(** A URL with exactly one trailing slash is stored without any. *)
Lemma replace_trailing_slash_single (s : string) :
  trailing_slashes s = 1%nat ->
  trailing_slashes (replace_trailing_slash s) = 0%nat.
Proof.
  intros H. destruct (replace_trailing_slash_removes_one s) as [Ht _].
  rewrite Ht, H. reflexivity.
Qed.

Lemma getSonarrInstances_incomplete (p : Preferences) :
  primary_complete p = false ->
  getSonarrInstances p = Throw primary_incomplete_error.
Proof.
  unfold primary_complete, getSonarrInstances. intros H.
  destruct (truthy (primaryInstanceName p)),
           (truthy (primaryInstanceUrl p)),
           (truthy (primaryInstanceApiKey p)); simpl in *;
    try reflexivity; discriminate.
Qed.

Lemma getSonarrInstances_complete (p : Preferences) :
  primary_complete p = true ->
  getSonarrInstances p =
  Return (if truthy_bool (enableSecondaryInstance p) && secondary_complete p
          then [primary_instance p; secondary_instance p]
          else [primary_instance p]).
Proof.
  unfold primary_complete, secondary_complete, getSonarrInstances. intros H.
  destruct (truthy (primaryInstanceName p)),
           (truthy (primaryInstanceUrl p)),
           (truthy (primaryInstanceApiKey p)); simpl in H; try discriminate.
  simpl.
  destruct (truthy_bool (enableSecondaryInstance p)),
           (truthy (secondaryInstanceName p)),
           (truthy (secondaryInstanceUrl p)),
           (truthy (secondaryInstanceApiKey p)); reflexivity.
Qed.

Lemma primary_is_not_secondary (p : Preferences) :
  primary_instance p <> secondary_instance p.
Proof.
  intros H. apply (f_equal isDefault) in H. discriminate H.
Qed.

Lemma getActiveSonarrInstance_complete (p : Preferences) :
  primary_complete p = true ->
  getActiveSonarrInstance p =
  Return (Some (if secondary_marked p && secondary_complete p
                then secondary_instance p else primary_instance p)).
Proof.
  intros H. unfold getActiveSonarrInstance, secondary_marked.
  rewrite (getSonarrInstances_complete p H).
  destruct (active_is_secondary p),
           (truthy_bool (enableSecondaryInstance p)),
           (secondary_complete p); reflexivity.
Qed.

(** C2 (as stated, refuted): the secondary is marked enabled and active, yet
    the active instance is the primary, because the secondary has no URL. *)
Lemma C2_marked_secondary_not_returned :
  secondary_marked prefs_secondary_without_url = true
  /\ getActiveSonarrInstance prefs_secondary_without_url
     = Return (Some (primary_instance prefs_secondary_without_url))
  /\ getActiveSonarrInstance prefs_secondary_without_url
     <> Return (Some (secondary_instance prefs_secondary_without_url)).
Proof.
  split; [reflexivity|]. split; [reflexivity|].
  vm_compute. discriminate.
Qed.

(** C2 (amended): with a complete primary, the active instance is the
    secondary if and only if the configuration marks the secondary enabled
    and active and the secondary is itself completely configured (name, URL
    and API key), and it is the primary otherwise; with an incomplete primary
    both the instance list and the active instance fail with the
    configuration error. *)
Theorem C2_active_instance (p : Preferences) :
  (primary_complete p = true ->
     (getActiveSonarrInstance p = Return (Some (secondary_instance p))
      <-> secondary_marked p && secondary_complete p = true)
     /\ (getActiveSonarrInstance p = Return (Some (primary_instance p))
         <-> secondary_marked p && secondary_complete p = false))
  /\ (primary_complete p = false ->
        getSonarrInstances p = Throw primary_incomplete_error
        /\ getActiveSonarrInstance p = Throw primary_incomplete_error).
Proof.
  split.
  - intros H. rewrite (getActiveSonarrInstance_complete p H).
    pose proof (primary_is_not_secondary p) as Hne.
    destruct (secondary_marked p && secondary_complete p); split; split;
      intros E; try reflexivity; try discriminate;
      exfalso; injection E as E; auto.
  - intros H. unfold getActiveSonarrInstance.
    rewrite (getSonarrInstances_incomplete p H). split; reflexivity.
Qed.

Lemma C2_active_instance_witness :
  getActiveSonarrInstance prefs_two_instances
  = Return (Some (secondary_instance prefs_two_instances)).
Proof.
  apply (proj1 (C2_active_instance prefs_two_instances) eq_refl).
  reflexivity.
Defined.

(** C3 (the code departs from the claim): a primary URL ending in two
    slashes is stored with one trailing slash left, and the endpoint
    concatenation then contains a double slash before [api]. *)
Theorem C3_double_slash_survives :
  getSonarrInstances prefs_double_slash
  = Return [primary_instance prefs_double_slash]
  /\ url (primary_instance prefs_double_slash) = "http://localhost:8989/"
  /\ ends_with (url (primary_instance prefs_double_slash)) "/" = true
  /\ trailing_slashes (url (primary_instance prefs_double_slash)) = 1%nat
  /\ api_url (primary_instance prefs_double_slash) "/series"
     = "http://localhost:8989//api/v3/series"
  /\ includes (api_url (primary_instance prefs_double_slash) "/series")
       "//api" = true.
Proof.
  repeat split; reflexivity.
Qed.

(** C10: the branch that throws "No Sonarr instances configured" is never
    taken.  The instance list either fails with the incomplete-primary error
    or has one or two elements, the first being the primary with
    [isDefault = true]; and whenever the list is returned, the active
    instance is returned as well. *)
Theorem C10_no_instances_branch_unreachable (p : Preferences) :
  getActiveSonarrInstance p <> Throw no_instances_error
  /\ (getSonarrInstances p = Throw primary_incomplete_error
      \/ exists instances, getSonarrInstances p = Return instances)
  /\ (forall instances,
        getSonarrInstances p = Return instances ->
        (List.length instances = 1%nat \/ List.length instances = 2%nat)
        /\ nth_error instances 0 = Some (primary_instance p)
        /\ isDefault (primary_instance p) = true
        /\ exists i, getActiveSonarrInstance p = Return (Some i)).
Proof.
  destruct (primary_complete p) eqn:H.
  - pose proof (getSonarrInstances_complete p H) as HL.
    pose proof (getActiveSonarrInstance_complete p H) as HA.
    split; [rewrite HA; discriminate|].
    split; [right; eauto|].
    intros instances E. rewrite HL in E. injection E as <-.
    split; [destruct (_ && _); [right|left]; reflexivity|].
    split; [destruct (_ && _); reflexivity|].
    split; [reflexivity|]. eauto.
  - pose proof (getSonarrInstances_incomplete p H) as HL.
    split; [unfold getActiveSonarrInstance; rewrite HL; discriminate|].
    split; [left; assumption|].
    intros instances E. rewrite HL in E. discriminate E.
Qed.

Lemma C10_no_instances_branch_unreachable_witness :
  List.length [primary_instance prefs_two_instances;
               secondary_instance prefs_two_instances] = 2%nat
  /\ exists i, getActiveSonarrInstance prefs_two_instances = Return (Some i).
Proof.
  destruct (proj2 (proj2
    (C10_no_instances_branch_unreachable prefs_two_instances))
    [primary_instance prefs_two_instances;
     secondary_instance prefs_two_instances] eq_refl)
    as [_ [_ [_ Hex]]].
  split; [reflexivity | exact Hex].
Defined.

(** ** One-shot operations *)

Lemma invalid_instance_false (instance : option SonarrInstance) :
  invalid_instance instance = false ->
  exists inst, instance = Some inst
    /\ truthy (Some (url inst)) = true /\ truthy (Some (apiKey inst)) = true.
Proof.
  unfold invalid_instance. destruct instance as [inst|]; [|discriminate].
  cbn [option_map]. intros H. exists inst.
  destruct (truthy (Some (url inst))), (truthy (Some (apiKey inst)));
    try discriminate; auto.
Qed.

Lemma prefix_app (s t : string) : prefix s (s ++ t) = true.
Proof.
  induction s as [|c s IH]; simpl; [destruct t; reflexivity|].
  destruct (ascii_dec c c) as [_|Hne]; [exact IH | contradiction].
Qed.

Lemma includes_prefix (s t : string) : prefix t s = true -> includes s t = true.
Proof.
  intros H. destruct s; cbn [includes]; rewrite H; reflexivity.
Qed.

Lemma includes_app_r (p s t : string) :
  includes s t = true -> includes (p ++ s) t = true.
Proof.
  intros H. induction p as [|c p IH]; [exact H|].
  change ((String c p ++ s)%string) with (String c (p ++ s)).
  cbn [includes]. rewrite IH. apply orb_true_r.
Qed.

Lemma http_error_includes_status (response : Response.t) (detail : string) :
  includes (message_of (http_error response detail))
    (show_Z (Response.status response)) = true.
Proof.
  unfold http_error, message_of.
  apply includes_app_r, includes_prefix, prefix_app.
Qed.

Lemma ok_false_iff (r : Response.t) :
  Response.ok r = false
  <-> (Response.status r < 200 \/ 299 < Response.status r)%Z.
Proof.
  unfold Response.ok. rewrite andb_false_iff, !Z.leb_gt. tauto.
Qed.

(** C1 (as stated, refuted): with no instance the call throws instead of
    returning an empty sequence. *)
Lemma C1_invalid_instance_throws :
  searchSeries net_ok None "dark" = ([], Throw invalid_instance_error)
  /\ snd (searchSeries net_ok None "dark") <> Return [].
Proof.
  split; [reflexivity | discriminate].
Qed.

(** C1 (amended): with a usable instance (non-empty URL and API key) the
    search never throws, and when the transport fails, the status is not a
    success, or the body does not parse, it logs the error, shows the
    failure toast and returns the empty sequence; with an absent or
    incomplete instance it throws the invalid-instance error before any
    request is made. *)
Theorem C1_searchSeries_failure (net : Network)
  (instance : option SonarrInstance) (query : string) :
  (invalid_instance instance = true ->
     searchSeries net instance query = ([], Throw invalid_instance_error))
  /\ (forall inst,
        instance = Some inst ->
        invalid_instance instance = false ->
        (exists trace items,
           searchSeries net instance query = (trace, Return items))
        /\ (search_fails net inst query = true ->
            exists e,
              searchSeries net instance query
              = ([Fetch (searchSeries_request inst query);
                  ConsoleError "Series search error:" e;
                  ShowToast
                    (failure_toast "Search Failed"
                       ("Failed to search series: " ++ message_of e))],
                 Return []))).
Proof.
  split.
  - intros H. unfold searchSeries. rewrite H. reflexivity.
  - intros inst -> H. unfold searchSeries, search_fails. rewrite H.
    unfold fetch, try_catch, bind, lift, throw, ret, console_error, showToast.
    destruct (net (searchSeries_request inst query)) as [e|r].
    + split; [eexists; eexists; reflexivity|].
      intros _. exists e. reflexivity.
    + destruct (Response.ok r); cbn [negb orb].
      * destruct (Response.json r) as [j|e].
        -- split; [eexists; eexists; reflexivity | discriminate].
        -- split; [eexists; eexists; reflexivity|].
           intros _. exists e. reflexivity.
      * split; [eexists; eexists; reflexivity|].
        intros _. eexists. reflexivity.
Qed.

Lemma C1_searchSeries_failure_witness :
  exists e,
    searchSeries net_500 (Some instance_main) "dark"
    = ([Fetch (searchSeries_request instance_main "dark");
        ConsoleError "Series search error:" e;
        ShowToast
          (failure_toast "Search Failed"
             ("Failed to search series: " ++ message_of e))],
       Return []).
Proof.
  apply (proj2 (C1_searchSeries_failure net_500 (Some instance_main) "dark")
           instance_main eq_refl eq_refl).
  reflexivity.
Defined.

(** The request of [addSeries] is the first thing a call with a usable
    instance does, whatever the network answers. *)
Lemma addSeries_first_event (net : Network) (inst : SonarrInstance)
  (series : SeriesLookup.t) (qualityProfileId : Z) (rootFolderPath : string)
  (languageProfileId : Z) (seriesType : string) (seasonFolder : bool)
  (monitored searchOnAdd : option bool)
  (monitorSeasons : option (list Season.t)) :
  invalid_instance (Some inst) = false ->
  exists rest,
    fst (addSeries net (Some inst) series qualityProfileId rootFolderPath
           languageProfileId seriesType seasonFolder monitored searchOnAdd
           monitorSeasons)
    = Fetch {| Request.method := POST;
               Request.target := url inst ++ "/api/v3/series";
               Request.headers :=
                 [("X-Api-Key", apiKey inst);
                  ("Content-Type", "application/json")];
               Request.body :=
                 Some (addSeries_payload series qualityProfileId rootFolderPath
                         languageProfileId seriesType seasonFolder
                         (default_to true monitored)
                         (default_to true searchOnAdd) monitorSeasons) |}
      :: rest.
Proof.
  intros H. unfold addSeries. rewrite H.
  unfold fetch, try_catch, bind, lift, throw, ret, console_error, showToast.
  destruct (net _) as [e|r]; [eexists; reflexivity|].
  destruct (Response.ok r); cbn [negb].
  - destruct (Response.json r); eexists; reflexivity.
  - destruct (Response.text r); eexists; reflexivity.
Qed.

(** C5 (as stated, refuted): when the caller passes [monitorSeasons], here
    the empty selection, the seasons of the payload are that selection and
    not the seasons of the lookup result. *)
Lemma C5_seasons_not_copied :
  exists request payload rest,
    fst (addSeries net_ok (Some instance_main) series_example 1 "/tv" 1
           "standard" true None None (Some []))
    = Fetch request :: rest
    /\ Request.body request = Some payload
    /\ Payload.seasons payload = []
    /\ Payload.seasons payload <> SeriesLookup.seasons series_example.
Proof.
  do 3 eexists. split; [reflexivity|]. split; [reflexivity|].
  split; [reflexivity | discriminate].
Qed.

(** C5 (amended): every [addSeries] call with a usable instance first
    posts a payload whose path is [rootFolderPath + "/" + series.title],
    whose title and images are those of the lookup result, and whose seasons
    are the [monitorSeasons] argument when the caller passes one and the
    seasons of the lookup result otherwise; root folder "/tv" and title
    "Example" give the path "/tv/Example". *)
Theorem C5_addSeries_payload (net : Network) (inst : SonarrInstance)
  (series : SeriesLookup.t) (qualityProfileId : Z) (rootFolderPath : string)
  (languageProfileId : Z) (seriesType : string) (seasonFolder : bool)
  (monitored searchOnAdd : option bool)
  (monitorSeasons : option (list Season.t)) :
  invalid_instance (Some inst) = false ->
  exists request payload rest,
    fst (addSeries net (Some inst) series qualityProfileId rootFolderPath
           languageProfileId seriesType seasonFolder monitored searchOnAdd
           monitorSeasons)
    = Fetch request :: rest
    /\ Request.method request = POST
    /\ Request.body request = Some payload
    /\ Payload.path payload
       = (rootFolderPath ++ "/" ++ SeriesLookup.title series)%string
    /\ Payload.title payload = SeriesLookup.title series
    /\ Payload.images payload = SeriesLookup.images series
    /\ Payload.seasons payload
       = match monitorSeasons with
         | Some chosen => chosen
         | None => SeriesLookup.seasons series
         end
    /\ (rootFolderPath = "/tv" -> SeriesLookup.title series = "Example" ->
        Payload.path payload = "/tv/Example").
Proof.
  intros H.
  destruct (addSeries_first_event net inst series qualityProfileId
              rootFolderPath languageProfileId seriesType seasonFolder
              monitored searchOnAdd monitorSeasons H) as [rest E].
  eexists; eexists; exists rest. split; [exact E|].
  split; [reflexivity|]. split; [reflexivity|].
  split; [reflexivity|]. split; [reflexivity|]. split; [reflexivity|].
  split; [destruct monitorSeasons; reflexivity|].
  intros Hroot Htitle. cbn [addSeries_payload Payload.path].
  rewrite Hroot, Htitle. reflexivity.
Qed.

Lemma C5_addSeries_payload_witness :
  exists request payload rest,
    fst (addSeries net_ok (Some instance_main) series_example 1 "/tv" 1
           "standard" true None None None)
    = Fetch request :: rest
    /\ Request.body request = Some payload
    /\ Payload.path payload = "/tv/Example".
Proof.
  destruct (C5_addSeries_payload net_ok instance_main series_example 1 "/tv" 1
              "standard" true None None None eq_refl)
    as (request & payload & rest & E & _ & B & _ & _ & _ & _ & P).
  exists request, payload, rest.
  split; [exact E|]. split; [exact B|].
  apply P; reflexivity.
Defined.

(** C6: a [removeQueueItem] call with a usable instance that receives a
    response whose status is outside 200-299 issues a DELETE request whose
    query carries [removeFromClient] and [blocklist] (both [true] when the
    caller leaves them out), logs the error, shows the failure toast, and
    only then ends by throwing an error whose message contains the status
    code. *)
Theorem C6_removeQueueItem_non_2xx (net : Network) (inst : SonarrInstance)
  (id : Z) (removeFromClient blocklist : option bool)
  (response : Response.t) :
  let request :=
    removeQueueItem_request inst id (default_to true removeFromClient)
      (default_to true blocklist) in
  let err := http_error response (Response.statusText response) in
  invalid_instance (Some inst) = false ->
  net request = Responds response ->
  (Response.status response < 200 \/ 299 < Response.status response)%Z ->
  removeQueueItem net (Some inst) id removeFromClient blocklist
  = ([Fetch request;
      ConsoleError "Remove queue item error:" err;
      ShowToast (failure_toast "Failed to Remove Item" (message_of err))],
     Throw err)
  /\ includes (message_of err) (show_Z (Response.status response)) = true
  /\ Request.method request = DELETE
  /\ Request.target request
     = (url inst ++ "/api/v3/queue/" ++ show_Z id ++ "?removeFromClient="
        ++ show_bool (default_to true removeFromClient) ++ "&blocklist="
        ++ show_bool (default_to true blocklist))%string
  /\ (removeFromClient = None -> blocklist = None ->
      Request.target request
      = (url inst ++ "/api/v3/queue/" ++ show_Z id
         ++ "?removeFromClient=true&blocklist=true")%string).
Proof.
  intros request err Hvalid Hnet Hstatus.
  apply ok_false_iff in Hstatus.
  split.
  - unfold removeQueueItem. rewrite Hvalid.
    unfold fetch, try_catch, bind, throw, console_error, showToast.
    fold request. rewrite Hnet, Hstatus. reflexivity.
  - split; [apply http_error_includes_status|].
    split; [reflexivity|]. split; [reflexivity|].
    intros -> ->. reflexivity.
Qed.

Lemma C6_removeQueueItem_non_2xx_witness :
  snd (removeQueueItem net_500 (Some instance_main) 7 None None)
  = Throw (ErrorObj "HTTP 500: Internal Server Error")
  /\ Request.target (removeQueueItem_request instance_main 7 true true)
     = "http://localhost:8989/api/v3/queue/7?removeFromClient=true&blocklist=true".
Proof.
  destruct (C6_removeQueueItem_non_2xx net_500 instance_main 7 None None
              {| Response.status := 500;
                 Response.statusText := "Internal Server Error";
                 Response.text := Return "boom";
                 Response.json := Throw (ErrorObj "Unexpected token b") |}
              eq_refl eq_refl (or_intror eq_refl))
    as (E & _ & _ & _ & T).
  split.
  - rewrite E. reflexivity.
  - exact (T eq_refl eq_refl).
Defined.

(** ** Tracked reads *)

Lemma shouldExecute_true (instance : option SonarrInstance)
  (options : option ApiOptions.t) :
  shouldExecute instance options = true ->
  exists inst, instance = Some inst
    /\ truthy (Some (url inst)) = true /\ truthy (Some (apiKey inst)) = true.
Proof.
  unfold shouldExecute. intros H.
  apply andb_true_iff in H as [H _]. apply andb_true_iff in H as [Hu Hk].
  destruct instance as [inst|]; [|discriminate Hu].
  exists inst. auto.
Qed.

Lemma shouldExecute_invalid (instance : option SonarrInstance)
  (options : option ApiOptions.t) :
  invalid_instance instance = true -> shouldExecute instance options = false.
Proof.
  unfold invalid_instance, shouldExecute. intros H.
  destruct (truthy (option_map url instance)),
           (truthy (option_map apiKey instance)); try reflexivity.
  discriminate H.
Qed.

Lemma useFetch_first_render_suppressed (u : string) (o : UseFetch.options) :
  UseFetch.execute o = false ->
  fst (useFetch_first_render u o) = []
  /\ UseFetch.isLoading (snd (useFetch_first_render u o)) = false.
Proof.
  intros H. unfold useFetch_first_render. rewrite H. split; reflexivity.
Qed.

Lemma useFetch_first_render_request (u : string) (o : UseFetch.options)
  (r : Request.t) :
  In r (fst (useFetch_first_render u o)) ->
  Request.target r = u /\ Request.headers r = UseFetch.headers o.
Proof.
  unfold useFetch_first_render.
  destruct (UseFetch.execute o); intros Hin; [|destruct Hin].
  destruct Hin as [<-|[]]. split; reflexivity.
Qed.

(** C7: for every [useFetch] that issues no request and reports
    [isLoading = false] when [execute] is false, and whose requests go to
    the URL and carry the headers it was given, a tracked read for an absent
    instance or one with an empty URL or API key issues no request and is
    not loading; and every request a tracked read issues targets
    [{url}/api/v3{endpoint}] with header [X-Api-Key] set to the instance's
    key. *)
Theorem C7_tracked_read_requests (useFetch : UseFetch.hook)
  (instance : option SonarrInstance) (endpoint : string)
  (options : option ApiOptions.t) :
  (forall u o,
     UseFetch.execute o = false ->
     fst (useFetch u o) = []
     /\ UseFetch.isLoading (snd (useFetch u o)) = false) ->
  (forall u o r,
     In r (fst (useFetch u o)) ->
     Request.target r = u /\ Request.headers r = UseFetch.headers o) ->
  (invalid_instance instance = true ->
     fst (useSonarrAPI useFetch instance endpoint options) = []
     /\ UseFetch.isLoading
          (snd (useSonarrAPI useFetch instance endpoint options)) = false)
  /\ (forall r,
        In r (fst (useSonarrAPI useFetch instance endpoint options)) ->
        exists inst,
          instance = Some inst
          /\ Request.target r = (url inst ++ "/api/v3" ++ endpoint)%string
          /\ In ("X-Api-Key", apiKey inst) (Request.headers r)).
Proof.
  intros Hsuppress Hrequest. split.
  - intros Hinvalid. unfold useSonarrAPI.
    apply Hsuppress. cbn [UseFetch.execute].
    apply shouldExecute_invalid, Hinvalid.
  - intros r Hin. unfold useSonarrAPI in Hin.
    destruct (shouldExecute instance options) eqn:Hexec.
    + destruct (shouldExecute_true _ _ Hexec) as (inst & -> & Hu & Hk).
      apply Hrequest in Hin as [Ht Hh]. exists inst.
      rewrite Hu in Ht. cbn [UseFetch.headers option_map] in Hh.
      unfold or_str in Hh. rewrite Hk in Hh.
      split; [reflexivity|]. split; [exact Ht|].
      rewrite Hh. left. reflexivity.
    + match type of Hin with
      | In r (fst (useFetch ?u ?o)) =>
          destruct (Hsuppress u o) as [Hnone _];
            [reflexivity | rewrite Hnone in Hin]
      end.
      destruct Hin.
Qed.

Lemma C7_tracked_read_requests_witness :
  exists inst,
    Some instance_main = Some inst
    /\ Request.target
         {| Request.method := GET;
            Request.target := "http://localhost:8989/api/v3/series";
            Request.headers :=
              [("X-Api-Key", "k1"); ("Content-Type", "application/json")];
            Request.body := None |}
       = (url inst ++ "/api/v3" ++ "/series")%string
    /\ In ("X-Api-Key", apiKey inst)
         [("X-Api-Key", "k1"); ("Content-Type", "application/json")].
Proof.
  apply (proj2 (C7_tracked_read_requests useFetch_first_render
                  (Some instance_main) "/series" None
                  useFetch_first_render_suppressed
                  useFetch_first_render_request)).
  left. reflexivity.
Defined.

(** ** Download progress *)

Lemma ratio_between (a b : Q) :
  0 < b -> 0 <= a -> a <= b -> 0 <= a / b /\ a / b <= 1.
Proof.
  intros Hb Ha Hab. split.
  - apply Qle_shift_div_l; [exact Hb | lra].
  - apply Qle_shift_div_r; [exact Hb | lra].
Qed.

Section Rounding.

Variable fl : Q -> Q.

(** Rounding respects equality of rationals. *)
Hypothesis fl_compat : forall x y, x == y -> fl x == fl y.

(** Integers up to 2^53 in magnitude are representable. *)
Hypothesis fl_integer :
  forall z : Z, (Z.abs z <= 2 ^ 53)%Z -> fl (inject_Z z) == inject_Z z.

Lemma fl_of_integer (x : Q) (z : Z) :
  (Z.abs z <= 2 ^ 53)%Z -> x == inject_Z z -> fl x == inject_Z z.
Proof.
  intros Hz Hx. rewrite (fl_compat _ _ Hx). apply fl_integer, Hz.
Qed.

Lemma Math_round_integer (x : Q) (z : Z) :
  x == inject_Z z -> Math_round x == inject_Z z.
Proof.
  intros Hx. unfold Math_round.
  assert (E : Qfloor (x + (1 # 2)) = z).
  { rewrite Hx. unfold Qfloor, Qplus, inject_Z. cbn [Qnum Qden].
    change (Z.pos (1 * 2)) with 2%Z.
    rewrite Z.mul_1_l, Z.div_add_l by discriminate.
    change (1 / 2)%Z with 0%Z. apply Z.add_0_r. }
  rewrite E. reflexivity.
Qed.

Lemma getDownloadProgress_zero_size (item : QueueItem.t) :
  QueueItem.size item == 0 -> getDownloadProgress fl item == 0.
Proof.
  intros H. unfold getDownloadProgress.
  apply Qeq_bool_iff in H. rewrite H. reflexivity.
Qed.

Lemma getDownloadProgress_nonzero (item : QueueItem.t) :
  ~ QueueItem.size item == 0 ->
  getDownloadProgress fl item
  = fl (Math_round
          (fl (fl (fl (fl (QueueItem.size item - QueueItem.sizeleft item)
                       / QueueItem.size item) * 100) * 100)) / 100).
Proof.
  intros H. unfold getDownloadProgress.
  destruct (Qeq_bool (QueueItem.size item) 0) eqn:E; [|reflexivity].
  apply Qeq_bool_iff in E. contradiction.
Qed.

(** Nothing left to download: the quotient is exactly one. *)
Lemma getDownloadProgress_complete (item : QueueItem.t) :
  fl (QueueItem.size item) == QueueItem.size item ->
  0 < QueueItem.size item ->
  QueueItem.sizeleft item == 0 ->
  getDownloadProgress fl item == 100.
Proof.
  intros Hrep Hpos Hleft.
  assert (Hnz : ~ QueueItem.size item == 0).
  { intros E. rewrite E in Hpos. discriminate Hpos. }
  rewrite (getDownloadProgress_nonzero item Hnz).
  assert (H1 : fl (QueueItem.size item - QueueItem.sizeleft item)
               == QueueItem.size item).
  { rewrite <- Hrep at 2. apply fl_compat. rewrite Hleft. ring. }
  assert (H2 : fl (fl (QueueItem.size item - QueueItem.sizeleft item)
                   / QueueItem.size item) == inject_Z 1).
  { apply fl_of_integer; [cbn; lia|]. rewrite H1. field. exact Hnz. }
  assert (H3 : fl (fl (fl (QueueItem.size item - QueueItem.sizeleft item)
                       / QueueItem.size item) * 100) == inject_Z 100).
  { apply fl_of_integer; [cbn; lia|]. rewrite H2. reflexivity. }
  assert (H4 : fl (fl (fl (fl (QueueItem.size item - QueueItem.sizeleft item)
                           / QueueItem.size item) * 100) * 100)
               == inject_Z 10000).
  { apply fl_of_integer; [cbn; lia|]. rewrite H3. reflexivity. }
  apply Math_round_integer in H4.
  change 100 with (inject_Z 100) at 2.
  apply fl_of_integer; [cbn; lia|]. rewrite H4. reflexivity.
Qed.

(** Everything left to download: the quotient is exactly zero. *)
Lemma getDownloadProgress_untouched (item : QueueItem.t) :
  0 < QueueItem.size item ->
  QueueItem.sizeleft item == QueueItem.size item ->
  getDownloadProgress fl item == 0.
Proof.
  intros Hpos Hleft.
  assert (Hnz : ~ QueueItem.size item == 0).
  { intros E. rewrite E in Hpos. discriminate Hpos. }
  rewrite (getDownloadProgress_nonzero item Hnz).
  assert (H1 : fl (QueueItem.size item - QueueItem.sizeleft item)
               == inject_Z 0).
  { apply fl_of_integer; [cbn; lia|]. rewrite Hleft. ring. }
  assert (H2 : fl (fl (QueueItem.size item - QueueItem.sizeleft item)
                   / QueueItem.size item) == inject_Z 0).
  { apply fl_of_integer; [cbn; lia|]. rewrite H1. field. exact Hnz. }
  assert (H3 : fl (fl (fl (QueueItem.size item - QueueItem.sizeleft item)
                       / QueueItem.size item) * 100) == inject_Z 0).
  { apply fl_of_integer; [cbn; lia|]. rewrite H2. reflexivity. }
  assert (H4 : fl (fl (fl (fl (QueueItem.size item - QueueItem.sizeleft item)
                           / QueueItem.size item) * 100) * 100)
               == inject_Z 0).
  { apply fl_of_integer; [cbn; lia|]. rewrite H3. reflexivity. }
  apply Math_round_integer in H4.
  change 0 with (inject_Z 0) at 1.
  apply fl_of_integer; [cbn; lia|]. rewrite H4. reflexivity.
Qed.

End Rounding.

(** Rounding to two places gives a whole number of hundredths, the nearest
    one, a tie going upwards. *)
Lemma round_to_2_nearest (x : Q) :
  round_to 2 x == inject_Z (Qfloor (x * 100 + (1 # 2))) / 100
  /\ x - (1 # 200) < round_to 2 x /\ round_to 2 x <= x + (1 # 200).
Proof.
  unfold round_to, Math_round.
  change (inject_Z (10 ^ Z.of_nat 2)) with 100.
  pose proof (Qfloor_le (x * 100 + (1 # 2))) as Hlo.
  pose proof (Qlt_floor (x * 100 + (1 # 2))) as Hhi.
  rewrite inject_Z_plus in Hhi. change (inject_Z 1) with 1 in Hhi.
  set (n := inject_Z (Qfloor (x * 100 + (1 # 2)))) in *.
  split; [reflexivity|].
  split.
  - apply Qlt_shift_div_l; [reflexivity|]. lra.
  - apply Qle_shift_div_r; [reflexivity|]. lra.
Qed.

Section Accuracy.

Variable fl : Q -> Q.

Hypothesis fl_compat : forall x y, x == y -> fl x == fl y.

Hypothesis fl_integer :
  forall z : Z, (Z.abs z <= 2 ^ 53)%Z -> fl (inject_Z z) == inject_Z z.

(** One operation on values of moderate size is off by at most
    [op_error]. *)
Hypothesis fl_error :
  forall x, - (16384) <= x -> x <= 16384 ->
  x - op_error <= fl x /\ fl x <= x + op_error.

(** The result is a rounded whole number of hundredths: the integer nearest
    to the scaled progress, a tie going upwards. *)
Lemma getDownloadProgress_nearest (item : QueueItem.t) :
  ~ QueueItem.size item == 0 ->
  exists k : Z,
    getDownloadProgress fl item = fl (inject_Z k / 100)
    /\ inject_Z k - (1 # 2) <= scaled_progress fl item
    /\ scaled_progress fl item < inject_Z k + (1 # 2).
Proof.
  intros Hnz. unfold getDownloadProgress, scaled_progress, Math_round.
  destruct (Qeq_bool (QueueItem.size item) 0) eqn:E;
    [apply Qeq_bool_iff in E; contradiction|].
  set (s := fl (fl (fl (fl (QueueItem.size item - QueueItem.sizeleft item)
                        / QueueItem.size item) * 100) * 100)).
  exists (Qfloor (s + (1 # 2))). split; [reflexivity|].
  pose proof (Qfloor_le (s + (1 # 2))) as Hlo.
  pose proof (Qlt_floor (s + (1 # 2))) as Hhi.
  rewrite inject_Z_plus in Hhi. change (inject_Z 1) with 1 in Hhi.
  split; lra.
Qed.

Lemma getDownloadProgress_accurate (item : QueueItem.t) (n m : Z) :
  QueueItem.size item == inject_Z n ->
  QueueItem.sizeleft item == inject_Z m ->
  (0 <= m <= n)%Z -> (0 < n <= 2 ^ 53)%Z ->
  exact_percentage item - (1 # 200) - (1 # 1000000000)
  <= getDownloadProgress fl item
  /\ getDownloadProgress fl item
     <= exact_percentage item + (1 # 200) + (1 # 1000000000).
Proof.
  intros Hn Hm Hmn Hn53.
  assert (Hpos : 0 < QueueItem.size item).
  { rewrite Hn. change 0 with (inject_Z 0). rewrite <- Zlt_Qlt. lia. }
  assert (Hleft0 : 0 <= QueueItem.sizeleft item).
  { rewrite Hm. change 0 with (inject_Z 0). rewrite <- Zle_Qle. lia. }
  assert (Hleft1 : QueueItem.sizeleft item <= QueueItem.size item).
  { rewrite Hm, Hn. rewrite <- Zle_Qle. lia. }
  assert (Hnz : ~ QueueItem.size item == 0) by lra.
  destruct (getDownloadProgress_nearest item Hnz) as (k & Ek & Hk0 & Hk1).
  rewrite Ek. unfold scaled_progress in Hk0, Hk1. unfold exact_percentage.
  set (d := fl (QueueItem.size item - QueueItem.sizeleft item)) in *.
  assert (Hd : d == QueueItem.size item - QueueItem.sizeleft item).
  { subst d.
    assert (Ei : QueueItem.size item - QueueItem.sizeleft item
                 == inject_Z (n - m)).
    { rewrite Hn, Hm. unfold Z.sub. rewrite inject_Z_plus, inject_Z_opp.
      reflexivity. }
    rewrite (fl_compat _ _ Ei), Ei. apply fl_integer. lia. }
  set (x := (QueueItem.size item - QueueItem.sizeleft item)
            / QueueItem.size item).
  assert (Hx : 0 <= x /\ x <= 1).
  { apply ratio_between; lra. }
  assert (Hq' : d / QueueItem.size item == x).
  { subst x. rewrite Hd. reflexivity. }
  set (q := fl (d / QueueItem.size item)) in *.
  assert (Hq : x - op_error <= q /\ q <= x + op_error).
  { subst q. rewrite (fl_compat _ _ Hq').
    apply fl_error; lra. }
  unfold op_error in *.
  set (p := fl (q * 100)) in *.
  assert (Hp : q * 100 - (1 # 549755813888) <= p
               /\ p <= q * 100 + (1 # 549755813888)).
  { subst p. apply fl_error; lra. }
  set (s := fl (p * 100)) in *.
  assert (Hs : p * 100 - (1 # 549755813888) <= s
               /\ s <= p * 100 + (1 # 549755813888)).
  { subst s. apply fl_error; lra. }
  set (t := inject_Z k / 100).
  assert (Ht : t * 100 == inject_Z k) by (subst t; field).
  assert (Hout : t - (1 # 549755813888) <= fl t
                 /\ fl t <= t + (1 # 549755813888)).
  { apply fl_error; lra. }
  split; lra.
Qed.

End Accuracy.

(** C4 (as stated, refuted): in binary64 arithmetic 97 of 160 bytes give
    60.62, the double nearest to it, while the percentage 60.625 rounded to
    two decimal places is 60.63. *)
Lemma C4_binary64_differs :
  getDownloadProgress fl64 item_tie == fl64 (6062 # 100)
  /\ exact_percentage item_tie == 60625 # 1000
  /\ round_to 2 (exact_percentage item_tie) == 6063 # 100
  /\ ~ getDownloadProgress fl64 item_tie
       == round_to 2 (exact_percentage item_tie)
  /\ ~ getDownloadProgress fl64 item_tie
       == fl64 (round_to 2 (exact_percentage item_tie)).
Proof.
  split; [vm_compute; reflexivity|].
  split; [vm_compute; reflexivity|].
  split; [vm_compute; reflexivity|].
  split; intros H; vm_compute in H; discriminate H.
Qed.

(** C4 (amended): whatever the rounding of intermediate results, as long
    as it respects equality, leaves integers up to 2^53 and the size alone
    and is off by at most 2^-39 on values up to 2^14, the progress is 0 for size 0, 100 when a positive size has nothing
    left, and 0 when a positive size has everything left.  For a non-zero
    size it is the rounded value of [k / 100], where [k] is the integer
    nearest to the scaled progress as computed, a tie going upwards; and for
    whole byte counts with [0 <= sizeleft <= size <= 2^53] it is within
    [0.005 + 10^-9] of the exact percentage. *)
Theorem C4_download_progress (fl : Q -> Q) (item : QueueItem.t) :
  (forall x y, x == y -> fl x == fl y) ->
  (forall z : Z, (Z.abs z <= 2 ^ 53)%Z -> fl (inject_Z z) == inject_Z z) ->
  (forall x, - (16384) <= x -> x <= 16384 ->
     x - op_error <= fl x /\ fl x <= x + op_error) ->
  fl (QueueItem.size item) == QueueItem.size item ->
  (QueueItem.size item == 0 -> getDownloadProgress fl item == 0)
  /\ (0 < QueueItem.size item -> QueueItem.sizeleft item == 0 ->
      getDownloadProgress fl item == 100)
  /\ (0 < QueueItem.size item ->
      QueueItem.sizeleft item == QueueItem.size item ->
      getDownloadProgress fl item == 0)
  /\ (~ QueueItem.size item == 0 ->
      exists k : Z,
        getDownloadProgress fl item = fl (inject_Z k / 100)
        /\ inject_Z k - (1 # 2) <= scaled_progress fl item
        /\ scaled_progress fl item < inject_Z k + (1 # 2))
  /\ (forall n m : Z,
        QueueItem.size item == inject_Z n ->
        QueueItem.sizeleft item == inject_Z m ->
        (0 <= m <= n)%Z -> (0 < n <= 2 ^ 53)%Z ->
        exact_percentage item - (1 # 200) - (1 # 1000000000)
        <= getDownloadProgress fl item
        /\ getDownloadProgress fl item
           <= exact_percentage item + (1 # 200) + (1 # 1000000000)).
Proof.
  intros Hcompat Hinteger Herror Hsize.
  split; [apply getDownloadProgress_zero_size|].
  split; [apply getDownloadProgress_complete; assumption|].
  split; [apply getDownloadProgress_untouched; assumption|].
  split; [apply getDownloadProgress_nearest|].
  intros n m. apply getDownloadProgress_accurate; assumption.
Qed.

Lemma exact_error (x : Q) :
  - (16384) <= x -> x <= 16384 ->
  x - op_error <= exact x /\ exact x <= x + op_error.
Proof.
  intros _ _. unfold exact, op_error. split; lra.
Qed.

Lemma C4_download_progress_witness :
  getDownloadProgress exact item_completed == 100
  /\ exact_percentage item_downloading - (1 # 200) - (1 # 1000000000)
     <= getDownloadProgress exact item_downloading.
Proof.
  destruct (C4_download_progress exact item_completed
              (fun x y H => H) (fun z _ => Qeq_refl (inject_Z z))
              exact_error (Qeq_refl 1000))
    as (_ & Hdone & _ & _ & _).
  destruct (C4_download_progress exact item_downloading
              (fun x y H => H) (fun z _ => Qeq_refl (inject_Z z))
              exact_error (Qeq_refl 1000))
    as (_ & _ & _ & _ & Hnear).
  split.
  - apply Hdone; reflexivity.
  - apply (Hnear 1000%Z 250%Z); [reflexivity | reflexivity | lia | lia].
Defined.

(** ** Polling *)




Lemma timers_after_app (live : nat) (a b : list Output) :
  timers_after live (a ++ b)
  = match timers_after live a with
    | Some n => timers_after n b
    | None => None
    end.
Proof.
  revert live. induction a as [|o a IH]; intros live; [reflexivity|].
  destruct o; cbn [app timers_after]; [apply IH | apply IH|].
  destruct live; [reflexivity | apply IH].
Qed.

Lemma step_timers (v : View) (i : Input) (r : option View)
  (out : list Output) :
  step v i = Some (r, out) ->
  timers_after (timers_of (Some v)) out = Some (timers_of r).
Proof.
  destruct v as [q p]. destruct i as [response| | |]; cbn [step poll].
  - unfold autoRefreshEffect.
    destruct (hasActiveDownloads (queueItems response));
      cbn [start]; intros E; injection E as <- <-; destruct p; reflexivity.
  - destruct p as [|t]; [discriminate|].
    intros E; injection E as <- <-. destruct t as [[] ?]. reflexivity.
  - intros E; injection E as <- <-. destruct p; reflexivity.
  - intros E; injection E as <- <-. destruct p; reflexivity.
Qed.

Lemma run_timers (inputs : list Input) :
  forall (v : View) (r : option View) (out : list Output),
    run v inputs = Some (r, out) ->
    timers_after (timers_of (Some v)) out = Some (timers_of r).
Proof.
  induction inputs as [|i rest IH]; intros v r out Hrun.
  - injection Hrun as <- <-. reflexivity.
  - cbn [run] in Hrun.
    destruct (step v i) as [[[w|] o]|] eqn:Hstep; [| |discriminate].
    + destruct (run w rest) as [[r' o']|] eqn:Hrest; [|discriminate].
      injection Hrun as <- <-.
      rewrite timers_after_app, (step_timers v i (Some w) o Hstep).
      exact (IH w r' o' Hrest).
    + destruct rest; [|discriminate]. injection Hrun as <- <-.
      exact (step_timers v i None o Hstep).
Qed.



(** * Further properties of the layer *)

(** ** The further definitions on sample inputs *)

Example testConnection_ok :
  testConnection net_ok (Some instance_main)
  = ([Fetch (testConnection_request instance_main)], Return true).
Proof. reflexivity. Qed.

Example testConnection_500 :
  testConnection net_500 (Some instance_main)
  = ([Fetch (testConnection_request instance_main)], Return false).
Proof. reflexivity. Qed.

Example getRootFolders_not_an_array :
  getRootFolders (fun e => Return e) net_object (Some instance_main)
  = ([Fetch (list_request instance_main "/rootfolder");
      ConsoleError "Failed to get root folders:"
        (not_a_function "rootFolders")],
     Return []).
Proof. reflexivity. Qed.

Example useCalendar_endpoint_dates :
  useCalendar_endpoint (Some "2024-01-01") (Some "2024-03-01")
  = "/calendar?start=2024-01-01&end=2024-03-01&includeSeries=true&includeEpisodeFile=true&includeEpisodeImages=true&unmonitored=true".
Proof. reflexivity. Qed.

Example form_urlencode_time :
  form_urlencode "2024-01-01T10:00 a" = "2024-01-01T10%3A00+a".
Proof. reflexivity. Qed.

Example useHistory_endpoint_zero : useHistory_endpoint (Some 0%Z) = "/history".
Proof. reflexivity. Qed.

Example split_time : split ":" "00:15:30" = ["00"; "15"; "30"].
Proof. reflexivity. Qed.

Example split_trailing : split ":" "a:" = ["a"; ""].
Proof. reflexivity. Qed.

Example parseInt10_samples :
  parseInt10 "08" = Some 8%Z /\ parseInt10 " 12px" = Some 12%Z
  /\ parseInt10 "1.02" = Some 1%Z /\ parseInt10 "" = None
  /\ parseInt10 "-7" = Some (-7)%Z /\ parseInt10 "x1" = None.
Proof. repeat split; reflexivity. Qed.

Example formatTimeLeft_samples :
  formatTimeLeft parseInt10 (Some "00:15:30") = "15m 30s"
  /\ formatTimeLeft parseInt10 (Some "01:00:05") = "1h"
  /\ formatTimeLeft parseInt10 (Some "00:00:00") = "< 1m"
  /\ formatTimeLeft parseInt10 (Some "xx:00:30") = "< 1m"
  /\ formatTimeLeft parseInt10 None = "Unknown".
Proof. repeat split; reflexivity. Qed.

Example truncateText_default :
  truncateText (units_of_ascii "short") None = units_of_ascii "short".
Proof. reflexivity. Qed.

(** Four code units, the last one U+00E9: a text that fits. *)
Example truncateText_cafe :
  truncateText [99; 97; 102; 233]%N (Some 4%Z) = [99; 97; 102; 233]%N.
Proof. reflexivity. Qed.

Example getSeriesPoster_first_poster :
  getSeriesPoster series_with_images = Some "/poster.jpg"
  /\ getSeriesBanner series_with_images = Some "https://img/banner.jpg".
Proof. split; reflexivity. Qed.

Example calculateSeriesProgress_half :
  calculateSeriesProgress exact (Some statistics_half) = 63.
Proof. reflexivity. Qed.

Example handleRemoveItem_declined :
  handleRemoveItem net_ok (Some instance_main) item_downloading false
    None None
  = ([], Return []).
Proof. reflexivity. Qed.

Example useInstanceManager_two :
  useInstanceManager prefs_two_instances
  = ([],
     {| InstanceManager.currentInstance :=
          Some (secondary_instance prefs_two_instances);
        InstanceManager.isLoading := false;
        InstanceManager.availableInstances :=
          [primary_instance prefs_two_instances;
           secondary_instance prefs_two_instances] |}).
Proof. reflexivity. Qed.

(** ** One-shot operations and the network *)

Lemma append_assoc (a b c : string) : ((a ++ b) ++ c = a ++ (b ++ c))%string.
Proof.
  induction a as [|x a IH]; [reflexivity|]. simpl. rewrite IH. reflexivity.
Qed.

Lemma prefix_api (u rest : string) :
  prefix (u ++ "/api/v3/") (u ++ "/api/v3/" ++ rest) = true.
Proof.
  change ((u ++ "/api/v3/" ++ rest)%string)
    with ((u ++ ("/api/v3/" ++ rest))%string).
  rewrite <- append_assoc. apply prefix_app.
Qed.

Ltac eff_unfold :=
  unfold fetch, try_catch, bind, lift, throw, ret, console_error, showToast.

Ltac eff_cases net :=
  eff_unfold;
  match goal with
  | |- context [net ?r] => destruct (net r) as [?e|?resp] eqn:?Hnet
  end;
  try match goal with
  | |- context [Response.ok ?r] => destruct (Response.ok r) eqn:?Hok
  end;
  cbn [negb];
  try match goal with
  | |- context [Response.json ?r] =>
      destruct (Response.json r) as [[?els|?raw]|?je] eqn:?Hjson
  end;
  try match goal with
  | |- context [Response.text ?r] =>
      destruct (Response.text r) as [?txt|?te] eqn:?Htext
  end.

Lemma one_request_invalid (instance : option SonarrInstance)
  (trace : list Event) :
  invalid_instance instance = true ->
  fetches trace = [] -> one_request_to instance trace.
Proof.
  intros H E. unfold one_request_to. destruct instance; [rewrite H|]; exact E.
Qed.

Lemma one_request_valid (inst : SonarrInstance) (trace : list Event)
  (r : Request.t) :
  invalid_instance (Some inst) = false ->
  fetches trace = [r] -> addressed_to inst r ->
  one_request_to (Some inst) trace.
Proof.
  intros H E A. unfold one_request_to. rewrite H. exists r. auto.
Qed.

Lemma invalid_instance_None : invalid_instance None = true.
Proof. reflexivity. Qed.

Lemma searchSeries_one_request (net : Network)
  (instance : option SonarrInstance) (query : string) :
  one_request_to instance (fst (searchSeries net instance query)).
Proof.
  unfold searchSeries.
  destruct (invalid_instance instance) eqn:H;
    [apply one_request_invalid; [exact H | reflexivity]|].
  destruct instance as [inst|]; [|discriminate H].
  apply (one_request_valid inst _ (searchSeries_request inst query) H).
  - eff_cases net; reflexivity.
  - split; [apply prefix_api | left; reflexivity].
Qed.

Lemma addSeries_one_request (net : Network) (instance : option SonarrInstance)
  (series : SeriesLookup.t) (qualityProfileId : Z) (rootFolderPath : string)
  (languageProfileId : Z) (seriesType : string) (seasonFolder : bool)
  (monitored searchOnAdd : option bool)
  (monitorSeasons : option (list Season.t)) :
  one_request_to instance
    (fst (addSeries net instance series qualityProfileId rootFolderPath
            languageProfileId seriesType seasonFolder monitored searchOnAdd
            monitorSeasons)).
Proof.
  unfold addSeries.
  destruct (invalid_instance instance) eqn:H;
    [apply one_request_invalid; [exact H | reflexivity]|].
  destruct instance as [inst|]; [|discriminate H].
  eapply (one_request_valid inst _ _ H).
  - eff_cases net; reflexivity.
  - split; [apply (prefix_api (url inst) "series") | left; reflexivity].
Qed.

Lemma removeQueueItem_one_request (net : Network)
  (instance : option SonarrInstance) (id : Z)
  (removeFromClient blocklist : option bool) :
  one_request_to instance
    (fst (removeQueueItem net instance id removeFromClient blocklist)).
Proof.
  unfold removeQueueItem.
  destruct (invalid_instance instance) eqn:H;
    [apply one_request_invalid; [exact H | reflexivity]|].
  destruct instance as [inst|]; [|discriminate H].
  eapply (one_request_valid inst _ _ H).
  - eff_cases net; reflexivity.
  - split; [apply prefix_api | left; reflexivity].
Qed.

Lemma testConnection_one_request (net : Network)
  (instance : option SonarrInstance) :
  one_request_to instance (fst (testConnection net instance)).
Proof.
  unfold testConnection.
  destruct (invalid_instance instance) eqn:H;
    [apply one_request_invalid; [exact H | reflexivity]|].
  destruct instance as [inst|]; [|discriminate H].
  eapply (one_request_valid inst _ _ H).
  - eff_cases net; reflexivity.
  - split; [apply (prefix_api (url inst) "system/status") | left; reflexivity].
Qed.

Lemma one_request_at_most (instance : option SonarrInstance)
  (trace : list Event) :
  one_request_to instance trace -> at_most_one_request_to instance trace.
Proof.
  unfold one_request_to, at_most_one_request_to.
  destruct instance as [inst|]; [|auto].
  destruct (invalid_instance (Some inst)) eqn:H.
  - intros E. auto.
  - intros (r & E & A). split; [intros D; discriminate D|].
    right. exists inst, r. auto.
Qed.

(** X1: each of the one-shot operations [addSeries], [removeQueueItem] and
    [testConnection] contacts the server exactly once per call with a
    usable instance and never without one; [searchSeries], which encodes
    the search text before it asks, contacts the server at most once and
    never without a usable instance.  Every request goes to a URL under
    [{url}/api/v3/] of the instance and carries its API key in [X-Api-Key],
    whatever the server answers. *)
Theorem X1_one_shot_single_request (net : Network)
  (instance : option SonarrInstance) (query : string)
  (series : SeriesLookup.t) (qualityProfileId : Z) (rootFolderPath : string)
  (languageProfileId : Z) (seriesType : string) (seasonFolder : bool)
  (monitored searchOnAdd : option bool)
  (monitorSeasons : option (list Season.t)) (id : Z)
  (removeFromClient blocklist : option bool) :
  at_most_one_request_to instance (fst (searchSeries net instance query))
  /\ one_request_to instance
       (fst (addSeries net instance series qualityProfileId rootFolderPath
               languageProfileId seriesType seasonFolder monitored
               searchOnAdd monitorSeasons))
  /\ one_request_to instance
       (fst (removeQueueItem net instance id removeFromClient blocklist))
  /\ one_request_to instance (fst (testConnection net instance)).
Proof.
  split; [apply one_request_at_most, searchSeries_one_request|].
  split; [apply addSeries_one_request|].
  split; [apply removeQueueItem_one_request | apply testConnection_one_request].
Qed.

(** X2: with a usable instance, [removeQueueItem] resolves exactly when the
    server answers its DELETE with a success status, and rejects otherwise;
    either way it shows exactly one toast, a success toast when it resolves
    and a failure toast when it rejects. *)
Theorem X2_removeQueueItem_outcome (net : Network) (inst : SonarrInstance)
  (id : Z) (removeFromClient blocklist : option bool) :
  invalid_instance (Some inst) = false ->
  let result :=
    removeQueueItem net (Some inst) id removeFromClient blocklist in
  let request :=
    removeQueueItem_request inst id (default_to true removeFromClient)
      (default_to true blocklist) in
  (snd result = Return tt <-> accepted net request = true)
  /\ ((exists e, snd result = Throw e) <-> accepted net request = false)
  /\ exists t,
       toasts (fst result) = [t]
       /\ (Toast.style t = Success <-> snd result = Return tt).
Proof.
  intros H result request. subst result.
  unfold removeQueueItem, accepted. rewrite H. fold request.
  eff_unfold.
  destruct (net request) as [e|resp]; [|destruct (Response.ok resp)];
    cbn [negb fst snd app toasts].
  - split; [split; intros E; discriminate E|].
    split; [split; [reflexivity | eauto]|].
    eexists. split; [reflexivity|]. split; intros E; discriminate E.
  - split; [split; reflexivity|].
    split; [split; [intros [e E]; discriminate E | intros E; discriminate E]|].
    eexists. split; [reflexivity|]. split; reflexivity.
  - split; [split; intros E; discriminate E|].
    split; [split; [reflexivity | eauto]|].
    eexists. split; [reflexivity|]. split; intros E; discriminate E.
Qed.

Lemma X2_removeQueueItem_outcome_witness :
  snd (removeQueueItem net_ok (Some instance_main) 7 None None) = Return tt.
Proof.
  apply (proj1 (X2_removeQueueItem_outcome net_ok instance_main 7 None None
                  eq_refl)).
  reflexivity.
Defined.

(** X3: with a usable instance, [addSeries] resolves exactly when the
    server answers the POST with a success status and a body that parses,
    and then resolves to that body; in every other case it rejects.  Either
    way exactly one toast is shown, a success toast exactly when it
    resolves. *)
Theorem X3_addSeries_outcome (net : Network) (inst : SonarrInstance)
  (series : SeriesLookup.t) (qualityProfileId : Z) (rootFolderPath : string)
  (languageProfileId : Z) (seriesType : string) (seasonFolder : bool)
  (monitored searchOnAdd : option bool)
  (monitorSeasons : option (list Season.t)) :
  invalid_instance (Some inst) = false ->
  let result :=
    addSeries net (Some inst) series qualityProfileId rootFolderPath
      languageProfileId seriesType seasonFolder monitored searchOnAdd
      monitorSeasons in
  let request :=
    {| Request.method := POST;
       Request.target := (url inst ++ "/api/v3/series")%string;
       Request.headers :=
         [("X-Api-Key", apiKey inst); ("Content-Type", "application/json")];
       Request.body :=
         Some (addSeries_payload series qualityProfileId rootFolderPath
                 languageProfileId seriesType seasonFolder
                 (default_to true monitored) (default_to true searchOnAdd)
                 monitorSeasons) |} in
  (forall added,
     snd result = Return added
     <-> exists response,
           net request = Responds response
           /\ Response.ok response = true
           /\ Response.json response = Return added)
  /\ exists t,
       toasts (fst result) = [t]
       /\ (Toast.style t = Success <-> exists added, snd result = Return added).
Proof.
  intros H result request. subst result.
  unfold addSeries. rewrite H. fold request. eff_unfold.
  destruct (net request) as [e|resp].
  - split.
    + intros added. split; [intros E; discriminate E|].
      intros (r & E & _). discriminate E.
    + eexists. split; [reflexivity|].
      split; [intros E; discriminate E | intros [a E]; discriminate E].
  - destruct (Response.ok resp) eqn:Hok; cbn [negb].
    + destruct (Response.json resp) as [j|e] eqn:Hj.
      * split.
        -- intros added. split.
           ++ intros E. injection E as <-. exists resp. auto.
           ++ intros (r & E & _ & J). injection E as <-.
              rewrite Hj in J. injection J as <-. reflexivity.
        -- eexists. split; [reflexivity|].
           split; [intros _; eexists; reflexivity | intros _; reflexivity].
      * split.
        -- intros added. split; [intros E; discriminate E|].
           intros (r & E & _ & J). injection E as <-.
           rewrite Hj in J. discriminate J.
        -- eexists. split; [reflexivity|].
           split; [intros E; discriminate E | intros [a E]; discriminate E].
    + destruct (Response.text resp) as [txt|e].
      * split.
        -- intros added. split; [intros E; discriminate E|].
           intros (r & E & O & _). injection E as <-.
           rewrite Hok in O. discriminate O.
        -- eexists. split; [reflexivity|].
           split; [intros E; discriminate E | intros [a E]; discriminate E].
      * split.
        -- intros added. split; [intros E; discriminate E|].
           intros (r & E & O & _). injection E as <-.
           rewrite Hok in O. discriminate O.
        -- eexists. split; [reflexivity|].
           split; [intros E; discriminate E | intros [a E]; discriminate E].
Qed.

Lemma X3_addSeries_outcome_witness :
  snd (addSeries net_ok (Some instance_main) series_example 1 "/tv" 1
         "standard" true None None None)
  = Return (JArray []).
Proof.
  apply (proj1 (X3_addSeries_outcome net_ok instance_main series_example 1
                  "/tv" 1 "standard" true None None None eq_refl)
           (JArray [])).
  eexists. split; [reflexivity|]. split; reflexivity.
Defined.

(** X4: [testConnection] never throws and never shows a toast; it answers
    [true] exactly when the instance is usable and the server answers the
    status request with a success status, and it makes no request at all
    for an absent or incomplete instance. *)
Theorem X4_testConnection_total (net : Network)
  (instance : option SonarrInstance) :
  exists trace connected,
    testConnection net instance = (trace, Return connected)
    /\ toasts trace = []
    /\ (invalid_instance instance = true -> trace = [] /\ connected = false)
    /\ (connected = true
        <-> exists inst,
              instance = Some inst
              /\ invalid_instance instance = false
              /\ accepted net (testConnection_request inst) = true).
Proof.
  unfold testConnection, accepted.
  destruct (invalid_instance instance) eqn:H.
  - exists [], false. split; [reflexivity|]. split; [reflexivity|].
    split; [auto|]. split; [discriminate|].
    intros (inst & _ & E & _). discriminate E.
  - destruct instance as [inst|]; [|discriminate H]. eff_unfold.
    destruct (net (testConnection_request inst)) as [e|resp] eqn:Hnet.
    + eexists; eexists. split; [reflexivity|]. split; [reflexivity|].
      split; [discriminate|]. split; [discriminate|].
      intros (i & E & _ & A). injection E as <-.
      rewrite Hnet in A. discriminate A.
    + eexists; eexists. split; [reflexivity|]. split; [reflexivity|].
      split; [discriminate|]. split.
      * intros E. exists inst. rewrite Hnet. auto.
      * intros (i & E & _ & A). injection E as <-.
        rewrite Hnet in A. exact A.
Qed.

Lemma X4_testConnection_total_witness :
  exists trace connected,
    testConnection net_500 (Some instance_main) = (trace, Return connected)
    /\ toasts trace = [] /\ connected = false.
Proof.
  destruct (X4_testConnection_total net_500 (Some instance_main))
    as (trace & connected & E & T & _ & C).
  exists trace, connected. split; [exact E|]. split; [exact T|].
  destruct connected; [|reflexivity].
  destruct (proj1 C eq_refl) as (inst & Ei & _ & A).
  injection Ei as <-. discriminate A.
Defined.

Lemma get_list_outcome {A} (endpoint label what : string)
  (pick : string -> Completion A) (net : Network)
  (instance : option SonarrInstance) :
  (invalid_instance instance = true ->
     get_list endpoint label what pick net instance
     = ([], Throw invalid_instance_error))
  /\ (forall inst,
        instance = Some inst ->
        invalid_instance instance = false ->
        exists trace items,
          get_list endpoint label what pick net instance
          = (trace, Return items)
          /\ toasts trace = []
          /\ (items = []
              \/ exists response elements,
                   net (list_request inst endpoint) = Responds response
                   /\ Response.ok response = true
                   /\ Response.json response = Return (JArray elements)
                   /\ map_throwing pick elements = Return items)).
Proof.
  split.
  - intros H. unfold get_list. rewrite H. reflexivity.
  - intros inst -> H. unfold get_list. rewrite H. eff_unfold.
    destruct (net (list_request inst endpoint)) as [e|resp].
    + eexists; eexists. split; [reflexivity|]. split; [reflexivity|].
      left; reflexivity.
    + destruct (Response.ok resp) eqn:Hok; cbn [negb].
      * destruct (Response.json resp) as [[els|raw]|e] eqn:Hj.
        -- destruct (map_throwing pick els) as [l|e] eqn:Hm;
             (eexists; eexists; split; [reflexivity|];
              split; [reflexivity|]).
           ++ right. exists resp, els. auto.
           ++ left; reflexivity.
        -- eexists; eexists. split; [reflexivity|]. split; [reflexivity|].
           left; reflexivity.
        -- eexists; eexists. split; [reflexivity|]. split; [reflexivity|].
           left; reflexivity.
      * eexists; eexists. split; [reflexivity|]. split; [reflexivity|].
        left; reflexivity.
Qed.

(** X5: [getRootFolders], [getQualityProfiles] and [getLanguageProfiles]
    throw only for an absent or incomplete instance, before any request.
    With a usable instance they never throw and never show a toast, and
    they return a non-empty list only when the server answered with a
    success status and an array all of whose elements could be read; every
    failure is returned as the empty list. *)
Theorem X5_option_lists_fail_silently {A} (pick : string -> Completion A)
  (net : Network) (instance : option SonarrInstance) :
  let silent (endpoint : string) (result : Eff (list A)) :=
    (invalid_instance instance = true ->
       result = ([], Throw invalid_instance_error))
    /\ (forall inst,
          instance = Some inst ->
          invalid_instance instance = false ->
          exists trace items,
            result = (trace, Return items)
            /\ toasts trace = []
            /\ (items = []
                \/ exists response elements,
                     net (list_request inst endpoint) = Responds response
                     /\ Response.ok response = true
                     /\ Response.json response = Return (JArray elements)
                     /\ map_throwing pick elements = Return items)) in
  silent "/rootfolder" (getRootFolders pick net instance)
  /\ silent "/qualityprofile" (getQualityProfiles pick net instance)
  /\ silent "/languageprofile" (getLanguageProfiles pick net instance).
Proof.
  cbv zeta. unfold getRootFolders, getQualityProfiles, getLanguageProfiles.
  split; [apply get_list_outcome|]. split; apply get_list_outcome.
Qed.

Lemma X5_option_lists_fail_silently_witness :
  exists trace,
    getRootFolders (fun e => Return e) net_500 (Some instance_main)
    = (trace, Return []) /\ toasts trace = [].
Proof.
  destruct (proj2 (proj1 (X5_option_lists_fail_silently
                            (fun e => Return e) net_500 (Some instance_main)))
              instance_main eq_refl eq_refl)
    as (trace & items & E & T & [->|(r & els & N & O & _)]).
  - exists trace. split; [exact E | exact T].
  - exfalso. injection N as <-. discriminate O.
Defined.

(** ** The registry seen from the operations *)

Lemma replace_trailing_slash_empty (s : string) :
  replace_trailing_slash s = "" <-> s = "" \/ s = "/".
Proof.
  split.
  - destruct s as [|c [|d r]]; [auto| |].
    + simpl. destruct (Ascii.eqb_spec c slash) as [->|]; [auto|discriminate].
    + intros H. exfalso.
      change (replace_trailing_slash (String c (String d r)))
        with (String c (replace_trailing_slash (String d r))) in H.
      discriminate H.
  - intros [->| ->]; reflexivity.
Qed.

Lemma truthy_Some (s : string) : truthy (Some s) = true <-> s <> "".
Proof.
  destruct s; simpl; split; intros H; try reflexivity; try discriminate;
    try congruence.
Qed.

Lemma stored_url_usable (configured : option string) :
  truthy configured = true ->
  (truthy (Some (replace_trailing_slash (str configured))) = false
   <-> configured = Some "/").
Proof.
  destruct configured as [s|]; [|discriminate]. cbn [str]. intros H.
  apply truthy_Some in H.
  split.
  - intros E.
    destruct (replace_trailing_slash s) eqn:R; [|discriminate E].
    apply replace_trailing_slash_empty in R as [->| ->];
      [contradiction | reflexivity].
  - intros E. injection E as ->. reflexivity.
Qed.

(** X6: an instance that the registry returns is usable by the API layer
    unless its configured URL is exactly "/": that URL passes the
    completeness check, is stored as the empty string, and makes every
    one-shot operation reject the instance.  This holds for the primary and,
    when it is listed, for the secondary. *)
Theorem X6_listed_instance_usable (p : Preferences)
  (instances : list SonarrInstance) :
  getSonarrInstances p = Return instances ->
  (invalid_instance (Some (primary_instance p)) = true
   <-> primaryInstanceUrl p = Some "/")
  /\ (In (secondary_instance p) instances ->
      (invalid_instance (Some (secondary_instance p)) = true
       <-> secondaryInstanceUrl p = Some "/"))
  /\ (forall i, In i instances ->
      i = primary_instance p \/ i = secondary_instance p).
Proof.
  intros E.
  destruct (primary_complete p) eqn:Hp;
    [|rewrite (getSonarrInstances_incomplete p Hp) in E; discriminate E].
  rewrite (getSonarrInstances_complete p Hp) in E. injection E as <-.
  unfold primary_complete in Hp.
  apply andb_true_iff in Hp as [Hp Hk]. apply andb_true_iff in Hp as [Hn Hu].
  assert (Hkey : forall k, truthy k = true -> truthy (Some (str k)) = true).
  { intros [k|] Ht; [exact Ht | discriminate Ht]. }
  split; [|split].
  - unfold invalid_instance. cbn [option_map primary_instance url apiKey].
    rewrite (Hkey _ Hk), orb_false_r, negb_true_iff.
    apply stored_url_usable, Hu.
  - destruct (truthy_bool (enableSecondaryInstance p) && secondary_complete p)
      eqn:Hs.
    + intros _. unfold secondary_complete in Hs.
      apply andb_true_iff in Hs as [_ Hs].
      apply andb_true_iff in Hs as [Hs Hk2].
      apply andb_true_iff in Hs as [_ Hu2].
      unfold invalid_instance.
      cbn [option_map secondary_instance url apiKey].
      rewrite (Hkey _ Hk2), orb_false_r, negb_true_iff.
      apply stored_url_usable, Hu2.
    + intros [Hin|[]]. exfalso. exact (primary_is_not_secondary p Hin).
  - intros i Hin.
    destruct (truthy_bool (enableSecondaryInstance p) && secondary_complete p).
    + destruct Hin as [<-|[<-|[]]]; auto.
    + destruct Hin as [<-|[]]; auto.
Qed.

Lemma X6_listed_instance_usable_witness :
  invalid_instance (Some (primary_instance prefs_two_instances)) = true
  <-> primaryInstanceUrl prefs_two_instances = Some "/".
Proof.
  exact (proj1 (X6_listed_instance_usable prefs_two_instances
                  [primary_instance prefs_two_instances;
                   secondary_instance prefs_two_instances] eq_refl)).
Defined.

(** X7: once the mount effect of [useInstanceManager] has run, loading is
    over; the current instance is absent exactly when the list of available
    instances is empty, which is exactly when the primary configuration is
    incomplete.  In that case the configuration error is logged to the
    console, once, with the label "Failed to load default instance:", and
    nothing else happens; with a complete primary nothing is logged and the
    current instance is one of the available instances.  Switching replaces
    the current instance and nothing else. *)
Theorem X7_instance_manager_mounted (p : Preferences) :
  let events := fst (useInstanceManager p) in
  let st := snd (useInstanceManager p) in
  InstanceManager.isLoading st = false
  /\ (InstanceManager.currentInstance st = None
      <-> InstanceManager.availableInstances st = [])
  /\ (InstanceManager.availableInstances st = []
      <-> primary_complete p = false)
  /\ (events = [] <-> primary_complete p = true)
  /\ (primary_complete p = false ->
      events = [ConsoleError "Failed to load default instance:"
                  primary_incomplete_error])
  /\ (forall i, InstanceManager.currentInstance st = Some i ->
      In i (InstanceManager.availableInstances st))
  /\ (forall i,
        InstanceManager.currentInstance (switchToInstance st i) = Some i
        /\ InstanceManager.availableInstances (switchToInstance st i)
           = InstanceManager.availableInstances st).
Proof.
  cbv zeta.
  unfold useInstanceManager, loadDefaultInstance, useInstanceManager_initial,
    availableInstances_of.
  destruct (primary_complete p) eqn:Hp.
  - rewrite (getActiveSonarrInstance_complete p Hp),
      (getSonarrInstances_complete p Hp).
    cbn [fst snd InstanceManager.isLoading InstanceManager.currentInstance
         InstanceManager.availableInstances].
    unfold secondary_marked.
    destruct (truthy_bool (enableSecondaryInstance p)),
             (active_is_secondary p), (secondary_complete p);
      cbn [andb];
      (split; [reflexivity|];
       split; [split; intros E; discriminate E|];
       split; [split; intros E; discriminate E|];
       split; [split; reflexivity|];
       split; [intros E; discriminate E|];
       split; [intros i E; injection E as <-; simpl; auto|];
       intros i; split; reflexivity).
  - unfold getActiveSonarrInstance.
    rewrite (getSonarrInstances_incomplete p Hp).
    cbn [fst snd InstanceManager.isLoading InstanceManager.currentInstance
         InstanceManager.availableInstances].
    split; [reflexivity|].
    split; [split; reflexivity|].
    split; [split; reflexivity|].
    split; [split; intros E; discriminate E|].
    split; [reflexivity|].
    split; [intros i E; discriminate E|].
    intros i; split; reflexivity.
Qed.

Lemma X7_instance_manager_mounted_witness :
  In (secondary_instance prefs_two_instances)
    (InstanceManager.availableInstances
       (snd (useInstanceManager prefs_two_instances))).
Proof.
  apply (proj1 (proj2 (proj2 (proj2 (proj2 (proj2
           (X7_instance_manager_mounted prefs_two_instances))))))).
  reflexivity.
Defined.

Lemma useSonarrAPI_requests (useFetch : UseFetch.hook)
  (instance : option SonarrInstance) (endpoint : string)
  (options : option ApiOptions.t) :
  (forall u o,
     UseFetch.execute o = false ->
     fst (useFetch u o) = []
     /\ UseFetch.isLoading (snd (useFetch u o)) = false) ->
  (forall u o r,
     In r (fst (useFetch u o)) ->
     Request.target r = u /\ Request.headers r = UseFetch.headers o) ->
  (invalid_instance instance = true ->
     fst (useSonarrAPI useFetch instance endpoint options) = [])
  /\ (forall r,
        In r (fst (useSonarrAPI useFetch instance endpoint options)) ->
        exists inst,
          instance = Some inst
          /\ Request.target r = (url inst ++ "/api/v3" ++ endpoint)%string
          /\ In ("X-Api-Key", apiKey inst) (Request.headers r)).
Proof.
  intros Hsuppress Hrequest. split.
  - intros Hinvalid. unfold useSonarrAPI.
    apply Hsuppress. cbn [UseFetch.execute].
    apply shouldExecute_invalid, Hinvalid.
  - intros r Hin. unfold useSonarrAPI in Hin.
    destruct (shouldExecute instance options) eqn:Hexec.
    + destruct (shouldExecute_true _ _ Hexec) as (inst & -> & Hu & Hk).
      apply Hrequest in Hin as [Ht Hh]. exists inst.
      rewrite Hu in Ht. cbn [UseFetch.headers option_map] in Hh.
      unfold or_str in Hh. rewrite Hk in Hh.
      split; [reflexivity|]. split; [exact Ht|].
      rewrite Hh. left. reflexivity.
    + match type of Hin with
      | In r (fst (useFetch ?u ?o)) =>
          destruct (Hsuppress u o) as [Hnone _];
            [reflexivity | rewrite Hnone in Hin]
      end.
      destruct Hin.
Qed.

(** X8: the queue read of a view follows the configuration.  For every
    [useFetch] that honours [execute = false] and sends its requests where
    it is told, the read started with the instance manager's current
    instance issues no request when the primary configuration is
    incomplete; and any request it issues goes to the queue endpoint of the
    configured active instance (the secondary when it is enabled, selected
    and complete, the primary otherwise) with that instance's key. *)
Theorem X8_queue_read_follows_configuration (useFetch : UseFetch.hook)
  (p : Preferences) :
  (forall u o,
     UseFetch.execute o = false ->
     fst (useFetch u o) = []
     /\ UseFetch.isLoading (snd (useFetch u o)) = false) ->
  (forall u o r,
     In r (fst (useFetch u o)) ->
     Request.target r = u /\ Request.headers r = UseFetch.headers o) ->
  let current :=
    InstanceManager.currentInstance (snd (useInstanceManager p)) in
  let active :=
    if secondary_marked p && secondary_complete p
    then secondary_instance p else primary_instance p in
  (primary_complete p = false -> fst (useQueue useFetch current) = [])
  /\ (forall r,
        In r (fst (useQueue useFetch current)) ->
        primary_complete p = true
        /\ Request.target r
           = (url active
              ++ "/api/v3/queue?includeSeries=true&includeEpisode=true")%string
        /\ In ("X-Api-Key", apiKey active) (Request.headers r)).
Proof.
  intros Hsuppress Hrequest current active. unfold useQueue.
  destruct (useSonarrAPI_requests useFetch current
              "/queue?includeSeries=true&includeEpisode=true" None
              Hsuppress Hrequest) as [Hnone Hsome].
  assert (Hcur : current
                 = if primary_complete p then Some active else None).
  { subst current active.
    unfold useInstanceManager, loadDefaultInstance.
    destruct (primary_complete p) eqn:Hp.
    - rewrite (getActiveSonarrInstance_complete p Hp). reflexivity.
    - unfold getActiveSonarrInstance.
      rewrite (getSonarrInstances_incomplete p Hp). reflexivity. }
  split.
  - intros Hp. apply Hnone. rewrite Hcur, Hp. reflexivity.
  - intros r Hin. destruct (Hsome r Hin) as (inst & E & Ht & Hk).
    rewrite Hcur in E. destruct (primary_complete p); [|discriminate E].
    injection E as <-. auto.
Qed.

Lemma X8_queue_read_follows_configuration_witness :
  fst (useQueue useFetch_first_render
         (InstanceManager.currentInstance
            (snd (useInstanceManager prefs_double_slash))))
  <> []
  /\ forall r,
       In r (fst (useQueue useFetch_first_render
                    (InstanceManager.currentInstance
                       (snd (useInstanceManager prefs_double_slash))))) ->
       Request.target r
       = "http://localhost:8989//api/v3/queue?includeSeries=true&includeEpisode=true".
Proof.
  split; [discriminate|].
  intros r Hin.
  exact (proj1 (proj2 (proj2 (X8_queue_read_follows_configuration
           useFetch_first_render prefs_double_slash
           useFetch_first_render_suppressed useFetch_first_render_request)
           r Hin))).
Defined.

(** ** Callers of the one-shot operations *)

(** X9: [handleRemoveItem] never throws.  When the user declines the
    confirmation nothing happens at all.  When the user confirms, the
    handler does what [removeQueueItem] does and then, if the removal
    resolved, refreshes the queue with one call of [mutate]; if the removal
    was rejected, it logs the error to the console with the label "Failed
    to remove queue item:" and leaves the queue unrefreshed.  The queue is
    refreshed exactly when the user confirmed, the instance is usable and
    the server accepted the DELETE. *)
Theorem X9_handleRemoveItem (net : Network)
  (selectedInstance : option SonarrInstance) (item : QueueItem.t)
  (confirmed : bool) (removeFromClient blocklist : option bool) :
  let removal :=
    removeQueueItem net selectedInstance (QueueItem.id item)
      (Some (default_to true removeFromClient))
      (Some (default_to true blocklist)) in
  let handled :=
    handleRemoveItem net selectedInstance item confirmed removeFromClient
      blocklist in
  (exists trace calls,
     handled = (trace, Return calls)
     /\ (calls = [Mutate] \/ calls = [])
     /\ (calls = [Mutate]
         <-> confirmed = true
             /\ exists inst,
                  selectedInstance = Some inst
                  /\ invalid_instance selectedInstance = false
                  /\ accepted net
                       (removeQueueItem_request inst (QueueItem.id item)
                          (default_to true removeFromClient)
                          (default_to true blocklist)) = true))
  /\ (confirmed = false -> handled = ([], Return []))
  /\ (confirmed = true ->
      snd removal = Return tt -> handled = (fst removal, Return [Mutate]))
  /\ (confirmed = true ->
      forall error,
        snd removal = Throw error ->
        handled
        = (fst removal ++ [ConsoleError "Failed to remove queue item:" error],
           Return [])).
Proof.
  cbv zeta. unfold handleRemoveItem.
  destruct confirmed.
  2:{ split.
      - exists [], []. split; [reflexivity|]. split; [auto|].
        split; [intros E; discriminate E|]. intros [E _]; discriminate E.
      - split; [reflexivity|]. split; intros E; discriminate E. }
  split.
  - unfold removeQueueItem, accepted. cbn [default_to].
    destruct (invalid_instance selectedInstance) eqn:H.
    + eff_unfold. eexists; eexists. split; [reflexivity|]. split; [auto|].
      split; [intros E; discriminate E|].
      intros [_ (inst & _ & E & _)]. discriminate E.
    + destruct selectedInstance as [inst|]; [|discriminate H]. eff_unfold.
      set (request := removeQueueItem_request inst (QueueItem.id item)
                        (default_to true removeFromClient)
                        (default_to true blocklist)).
      destruct (net request) as [e|resp] eqn:Hnet.
      * eexists; eexists. split; [reflexivity|]. split; [auto|].
        split; [intros E; discriminate E|].
        intros [_ (i & E & _ & A)]. injection E as <-.
        fold request in A. rewrite Hnet in A. discriminate A.
      * destruct (Response.ok resp) eqn:Hok; cbn [negb];
          (eexists; eexists; split; [reflexivity|]; split; [auto|]).
        -- split; [|reflexivity]. intros _. split; [reflexivity|].
           exists inst. fold request. rewrite Hnet. auto.
        -- split; [intros E; discriminate E|].
           intros [_ (i & E & _ & A)]. injection E as <-.
           fold request in A. rewrite Hnet, Hok in A. discriminate A.
  - split; [intros E; discriminate E|].
    destruct (removeQueueItem net selectedInstance (QueueItem.id item)
                (Some (default_to true removeFromClient))
                (Some (default_to true blocklist))) as [t [[]|e]].
    + split; [intros _ _|intros _ error E; discriminate E].
      unfold try_catch, bind, ret. cbn [fst snd run_callback].
      rewrite app_nil_r. reflexivity.
    + split; [intros _ E; discriminate E|].
      intros _ error E. injection E as <-.
      unfold try_catch, bind, ret, console_error. cbn [fst snd].
      reflexivity.
Qed.

Lemma X9_handleRemoveItem_witness :
  handleRemoveItem net_500 (Some instance_main) item_downloading true
    None None
  = (fst (removeQueueItem net_500 (Some instance_main) 7 (Some true)
            (Some true))
     ++ [ConsoleError "Failed to remove queue item:"
           (ErrorObj "HTTP 500: Internal Server Error")],
     Return []).
Proof.
  apply (proj2 (proj2 (proj2
           (X9_handleRemoveItem net_500 (Some instance_main)
              item_downloading true None None))) eq_refl
           (ErrorObj "HTTP 500: Internal Server Error")).
  reflexivity.
Defined.

Lemma searchSeries_usable_returns (net : Network) (inst : SonarrInstance)
  (query : string) :
  invalid_instance (Some inst) = false ->
  exists trace items,
    searchSeries net (Some inst) query = (trace, Return items)
    /\ (search_fails net inst query = true -> items = [])
    /\ (forall e, ~ In (ConsoleError "Search error:" e) trace).
Proof.
  intros H. unfold searchSeries, search_fails. rewrite H. eff_unfold.
  destruct (net (searchSeries_request inst query)) as [e|r].
  - eexists; eexists. split; [reflexivity|]. split; [reflexivity|].
    intros e' [E|[E|[E|[]]]]; discriminate E.
  - destruct (Response.ok r); cbn [negb orb].
    + destruct (Response.json r) as [[els|raw]|e].
      * eexists; eexists. split; [reflexivity|].
        split; [intros E; discriminate E|].
        intros e' [E|[]]; discriminate E.
      * eexists; eexists. split; [reflexivity|]. split; [reflexivity|].
        intros e' [E|[]]; discriminate E.
      * eexists; eexists. split; [reflexivity|]. split; [reflexivity|].
        intros e' [E|[E|[E|[]]]]; discriminate E.
    + eexists; eexists. split; [reflexivity|]. split; [reflexivity|].
      intros e' [E|[E|[E|[]]]]; discriminate E.
Qed.

(** X10: the debounced search of the search view never reaches its own
    [catch] handler (no "Search error:" is ever logged), because it checks
    the instance before calling [searchSeries].  With a blank search text or
    without a usable instance it clears the results without any request or
    toast; otherwise it ends with [isSearching = false], and with empty
    results whenever the search failed. *)
Theorem X10_debounced_search (is_blank : string -> bool) (net : Network)
  (searchText : string) (selectedInstance : option SonarrInstance)
  (st : SearchState.t) :
  let events :=
    fst (debounced_search is_blank net searchText selectedInstance st) in
  let st' :=
    snd (debounced_search is_blank net searchText selectedInstance st) in
  (forall e, ~ In (ConsoleError "Search error:" e) events)
  /\ (is_blank searchText || invalid_instance selectedInstance = true ->
      events = []
      /\ SearchState.searchResults st' = []
      /\ SearchState.isSearching st' = SearchState.isSearching st)
  /\ (is_blank searchText || invalid_instance selectedInstance = false ->
      SearchState.isSearching st' = false
      /\ events = fst (searchSeries net selectedInstance searchText)
      /\ forall inst,
           selectedInstance = Some inst ->
           search_fails net inst searchText = true ->
           SearchState.searchResults st' = []).
Proof.
  cbv zeta. unfold debounced_search.
  destruct (is_blank searchText || invalid_instance selectedInstance) eqn:G.
  - split; [intros e []|]. split; [auto|]. intros E; discriminate E.
  - apply orb_false_iff in G as [_ H].
    destruct selectedInstance as [inst|]; [|discriminate H].
    destruct (searchSeries_usable_returns net inst searchText H)
      as (trace & items & E & Hfail & Hlog).
    rewrite E. cbn [fst snd SearchState.isSearching SearchState.searchResults].
    split; [exact Hlog|]. split; [intros D; discriminate D|].
    intros _. split; [reflexivity|]. split; [reflexivity|].
    intros i Ei. injection Ei as <-. exact Hfail.
Qed.

Lemma X10_debounced_search_witness :
  SearchState.searchResults
    (snd (debounced_search (fun s => String.eqb s "") net_500 "dark"
            (Some instance_main)
            {| SearchState.searchResults := ["stale"];
               SearchState.isSearching := false |}))
  = [].
Proof.
  apply (proj2 (proj2 (proj2 (proj2
           (X10_debounced_search (fun s => String.eqb s "") net_500 "dark"
              (Some instance_main)
              {| SearchState.searchResults := ["stale"];
                 SearchState.isSearching := false |})) eq_refl))
           instance_main eq_refl).
  reflexivity.
Defined.

(** ** Text utilities *)

Lemma length_append (a b : string) :
  String.length (a ++ b) = (String.length a + String.length b)%nat.
Proof.
  induction a as [|c a IH]; [reflexivity|]. simpl. rewrite IH. reflexivity.
Qed.

(** X11: [truncateText], on the UTF-16 code units of the text, returns a
    text that fits unchanged; a longer text becomes its own first
    [maxLength - 3] code units followed by "...".  The result is never
    longer than [maxLength] when [maxLength] is at least 3; for a smaller
    [maxLength] a text that does not fit becomes "..." alone, which is
    longer than asked for. *)
Theorem X11_truncateText (text : utf16) (maxLength : option Z) :
  let limit := default_to 100%Z maxLength in
  let result := truncateText text maxLength in
  ((Z.of_nat (List.length text) <= limit)%Z -> result = text)
  /\ ((limit < Z.of_nat (List.length text))%Z ->
      exists kept dropped,
        text = kept ++ dropped
        /\ result = kept ++ units_of_ascii "..."
        /\ List.length kept = Z.to_nat (limit - 3))
  /\ ((3 <= limit)%Z -> (Z.of_nat (List.length result) <= limit)%Z)
  /\ ((limit < 3)%Z -> (limit < Z.of_nat (List.length text))%Z ->
      result = units_of_ascii "...").
Proof.
  cbv zeta. unfold truncateText.
  set (limit := default_to 100%Z maxLength).
  destruct (Z.leb_spec (Z.of_nat (List.length text)) limit) as [Hle|Hgt].
  - split; [reflexivity|]. split; [lia|]. split; [lia|]. lia.
  - split; [lia|]. split; [|split].
    + intros _. exists (firstn (Z.to_nat (limit - 3)) text),
                       (skipn (Z.to_nat (limit - 3)) text).
      split; [symmetry; apply firstn_skipn|]. split; [reflexivity|].
      rewrite length_firstn. lia.
    + intros H3. rewrite length_app, length_firstn.
      change (List.length (units_of_ascii "...")) with 3%nat. lia.
    + intros Hlt _. replace (Z.to_nat (limit - 3)) with 0%nat by lia.
      reflexivity.
Qed.

Lemma X11_truncateText_witness :
  truncateText (units_of_ascii "An overview that is too long") (Some 10%Z)
  = units_of_ascii "An over..."
  /\ truncateText (units_of_ascii "An overview that is too long")
       (Some 2%Z)
     = units_of_ascii "...".
Proof.
  split.
  - destruct (proj1 (proj2 (X11_truncateText
                              (units_of_ascii "An overview that is too long")
                              (Some 10%Z))))
      as (kept & dropped & _ & E & _); [cbn; lia|].
    reflexivity.
  - apply (proj2 (proj2 (proj2 (X11_truncateText
             (units_of_ascii "An overview that is too long") (Some 2%Z)))));
      cbn; lia.
Defined.

Lemma concat_nonempty (sep first : string) (others : list string) :
  first <> "" -> String.concat sep (first :: others) <> "".
Proof.
  intros H. destruct first as [|c first]; [contradiction|].
  simpl. destruct others; discriminate.
Qed.

Lemma append_nonempty_r (a b : string) : b <> "" -> (a ++ b)%string <> "".
Proof.
  intros H E. apply (f_equal String.length) in E.
  rewrite length_append in E. destruct b; [contradiction|].
  simpl in E. lia.
Qed.

Lemma is_zero_not_positive (n : option Z) :
  is_zero n = true -> positive n = false.
Proof.
  destruct n as [v|]; [|discriminate]. simpl. intros H.
  apply Z.eqb_eq in H. subst v. reflexivity.
Qed.

(** X12: [formatTimeLeft] never returns the empty string, whatever
    [parseInt] makes of the parts.  A missing or empty value gives
    "Unknown"; a value that does not have exactly three parts separated by
    ":" is returned as it is.  With three parts: positive hours give the
    hours and, when positive, the minutes, never the seconds; hours that are
    exactly 0 give the positive ones among minutes and seconds; hours that
    are neither (not a number, or negative) give the minutes when positive
    and never the seconds; and when nothing is shown the result is
    "< 1m". *)
Theorem X12_formatTimeLeft (parseInt : string -> option Z)
  (timeleft : option string) :
  let parts := split ":" (str timeleft) in
  let hours := parseInt (nth 0 parts "") in
  let minutes := parseInt (nth 1 parts "") in
  let seconds := parseInt (nth 2 parts "") in
  let h := (show_number hours ++ "h")%string in
  let m := (show_number minutes ++ "m")%string in
  let s := (show_number seconds ++ "s")%string in
  let result := formatTimeLeft parseInt timeleft in
  result <> ""
  /\ (truthy timeleft = false -> result = "Unknown")
  /\ (truthy timeleft = true -> List.length parts <> 3%nat ->
      result = str timeleft)
  /\ (truthy timeleft = true -> List.length parts = 3%nat ->
      (positive hours = true ->
       result = if positive minutes then (h ++ " " ++ m)%string else h)
      /\ (is_zero hours = true ->
          result
          = if positive minutes
            then if positive seconds then (m ++ " " ++ s)%string else m
            else if positive seconds then s else "< 1m")
      /\ (positive hours = false -> is_zero hours = false ->
          result = if positive minutes then m else "< 1m")
      /\ (hours = None ->
          result = if positive minutes then m else "< 1m")).
Proof.
  cbv zeta. unfold formatTimeLeft.
  destruct (truthy timeleft) eqn:Ht; cbn [negb].
  2:{ split; [discriminate|]. split; [reflexivity|].
      split; intros E; discriminate E. }
  destruct (Nat.eqb_spec (List.length (split ":" (str timeleft))) 3)
    as [H3|H3]; cbn [negb].
  2:{ split; [destruct timeleft as [[|c r]|]; discriminate|].
      split; [intros E; discriminate E|]. split; [reflexivity|].
      intros _ E; contradiction. }
  set (hours := parseInt (nth 0 (split ":" (str timeleft)) "")).
  set (minutes := parseInt (nth 1 (split ":" (str timeleft)) "")).
  set (seconds := parseInt (nth 2 (split ":" (str timeleft)) "")).
  assert (Hh : (show_number hours ++ "h")%string <> "")
    by (apply append_nonempty_r; discriminate).
  assert (Hm : (show_number minutes ++ "m")%string <> "")
    by (apply append_nonempty_r; discriminate).
  assert (Hs : (show_number seconds ++ "s")%string <> "")
    by (apply append_nonempty_r; discriminate).
  pose proof (is_zero_not_positive hours) as Hzp.
  split; [|split; [intros E; discriminate E|split; [intros _ E; contradiction|]]].
  - destruct (positive hours), (positive minutes),
      (is_zero hours && positive seconds); cbn [app List.length Nat.ltb Nat.leb];
      try (apply concat_nonempty; assumption); discriminate.
  - intros _ _.
    assert (Hnone : hours = None ->
                    positive hours = false /\ is_zero hours = false).
    { intros ->. split; reflexivity. }
    destruct (positive hours) eqn:Hp, (is_zero hours) eqn:Hz;
      try (specialize (Hzp eq_refl); discriminate Hzp);
      cbn [andb app];
      repeat apply conj; intros;
      try match goal with
          | E : true = false |- _ => discriminate E
          | E : false = true |- _ => discriminate E
          | E : hours = None |- _ =>
              destruct (Hnone E) as [D1 D2];
              first [discriminate D1 | discriminate D2 | idtac]
          end;
      destruct (positive minutes), (positive seconds);
      cbn [app List.length Nat.ltb Nat.leb String.concat];
      rewrite ?append_assoc; reflexivity.
Qed.

Lemma X12_formatTimeLeft_witness :
  formatTimeLeft parseInt10 (Some "02:15:30") = "2h 15m"
  /\ formatTimeLeft parseInt10 (Some "xx:05:30") = "5m"
  /\ formatTimeLeft parseInt10 (Some "1.02:03:04.5:6") = "1.02:03:04.5:6".
Proof.
  split; [|split].
  - apply (proj1 (proj2 (proj2 (proj2
             (X12_formatTimeLeft parseInt10 (Some "02:15:30"))))
             eq_refl eq_refl) eq_refl).
  - apply (proj2 (proj2 (proj2 (proj2 (proj2 (proj2
             (X12_formatTimeLeft parseInt10 (Some "xx:05:30"))))
             eq_refl eq_refl))) eq_refl).
  - apply (proj1 (proj2 (proj2
             (X12_formatTimeLeft parseInt10 (Some "1.02:03:04.5:6"))))
             eq_refl).
    discriminate.
Defined.

Lemma find_cover_some (coverType : string) (images : list SeriesImage.t)
  (img : SeriesImage.t) :
  find_cover coverType images = Some img ->
  In img images /\ SeriesImage.coverType img = coverType.
Proof.
  intros H. apply find_some in H as [Hin Heq].
  apply String.eqb_eq in Heq. auto.
Qed.

Lemma find_cover_none (coverType : string) (images : list SeriesImage.t) :
  find_cover coverType images = None
  <-> forall img, In img images -> SeriesImage.coverType img <> coverType.
Proof.
  split.
  - intros H img Hin. apply String.eqb_neq.
    exact (find_none _ _ H img Hin).
  - intros H. unfold find_cover.
    induction images as [|i rest IH]; [reflexivity|]. simpl.
    destruct (String.eqb_spec (SeriesImage.coverType i) coverType) as [E|_].
    + exfalso. exact (H i (or_introl eq_refl) E).
    + apply IH. intros img Hin. apply H. right. exact Hin.
Qed.

(** X13: [getSeriesPoster] is undefined exactly when the series has no
    image of cover type "poster".  Otherwise it is a URL of a poster image
    of the series: its remote URL when that is set and non-empty, its local
    URL when not; banners and other cover types are never used. *)
Theorem X13_getSeriesPoster (series : SeriesLookup.t) :
  (getSeriesPoster series = None
   <-> forall img, In img (SeriesLookup.images series) ->
       SeriesImage.coverType img <> "poster")
  /\ (forall u,
        getSeriesPoster series = Some u ->
        exists img,
          In img (SeriesLookup.images series)
          /\ SeriesImage.coverType img = "poster"
          /\ ((SeriesImage.remoteUrl img = Some u /\ u <> "")
              \/ (truthy (SeriesImage.remoteUrl img) = false
                  /\ SeriesImage.url img = u))).
Proof.
  unfold getSeriesPoster, remote_or_local. split.
  - rewrite <- find_cover_none.
    destruct (find_cover "poster" (SeriesLookup.images series)) as [img|];
      [|split; reflexivity].
    destruct (truthy (SeriesImage.remoteUrl img)) eqn:Ht.
    + destruct (SeriesImage.remoteUrl img); [|discriminate Ht].
      split; intros E; discriminate E.
    + split; intros E; discriminate E.
  - intros u H.
    destruct (find_cover "poster" (SeriesLookup.images series)) as [img|] eqn:F;
      [|discriminate H].
    apply find_cover_some in F as [Hin Hc]. exists img.
    split; [exact Hin|]. split; [exact Hc|].
    destruct (truthy (SeriesImage.remoteUrl img)) eqn:Ht.
    + left. split; [exact H|].
      rewrite H in Ht. apply truthy_Some in Ht. exact Ht.
    + right. injection H as <-. auto.
Qed.

Lemma X13_getSeriesPoster_witness :
  exists img,
    In img (SeriesLookup.images series_with_images)
    /\ SeriesImage.coverType img = "poster"
    /\ ((SeriesImage.remoteUrl img = Some "/poster.jpg" /\ "/poster.jpg" <> "")
        \/ (truthy (SeriesImage.remoteUrl img) = false
            /\ SeriesImage.url img = "/poster.jpg")).
Proof.
  apply (proj2 (X13_getSeriesPoster series_with_images) "/poster.jpg").
  reflexivity.
Defined.

(** ** Percentages stay in range *)

Section MonotoneRounding.

Variable fl : Q -> Q.

(** Rounding to the nearest representable value is monotone. *)
Hypothesis fl_monotone : forall x y, x <= y -> fl x <= fl y.

Hypothesis fl_integer :
  forall z : Z, (Z.abs z <= 2 ^ 53)%Z -> fl (inject_Z z) == inject_Z z.

Lemma fl_between (x : Q) (n : Z) :
  (0 <= n <= 2 ^ 53)%Z -> 0 <= x -> x <= inject_Z n ->
  0 <= fl x /\ fl x <= inject_Z n.
Proof.
  intros Hn Hlo Hhi. split.
  - rewrite <- (fl_integer 0) by (cbn; lia). apply fl_monotone, Hlo.
  - rewrite <- (fl_integer n) by lia. apply fl_monotone, Hhi.
Qed.

Lemma Math_round_between (x : Q) (n : Z) :
  0 <= x -> x <= inject_Z n ->
  exists k : Z, Math_round x = inject_Z k /\ (0 <= k <= n)%Z.
Proof.
  intros Hlo Hhi. unfold Math_round. eexists. split; [reflexivity|].
  split.
  - change 0%Z with (Qfloor 0). apply Qfloor_resp_le. lra.
  - assert (E : Qfloor (inject_Z n + (1 # 2)) = n).
    { unfold Qfloor, Qplus, inject_Z. cbn [Qnum Qden].
      change (Z.pos (1 * 2)) with 2%Z.
      rewrite Z.mul_1_l, Z.div_add_l by discriminate.
      change (1 / 2)%Z with 0%Z. apply Z.add_0_r. }
    rewrite <- E. apply Qfloor_resp_le. lra.
Qed.

Lemma getDownloadProgress_in_range (item : QueueItem.t) :
  fl (QueueItem.size item) == QueueItem.size item ->
  0 < QueueItem.size item ->
  0 <= QueueItem.sizeleft item ->
  QueueItem.sizeleft item <= QueueItem.size item ->
  0 <= getDownloadProgress fl item /\ getDownloadProgress fl item <= 100.
Proof.
  intros Hrep Hpos Hleft Hle.
  assert (Hnz : ~ QueueItem.size item == 0) by lra.
  unfold getDownloadProgress.
  destruct (Qeq_bool (QueueItem.size item) 0) eqn:E;
    [apply Qeq_bool_iff in E; contradiction|].
  set (d := fl (QueueItem.size item - QueueItem.sizeleft item)).
  assert (Hd : 0 <= d /\ d <= QueueItem.size item).
  { subst d. split.
    - apply Qle_trans with (fl (inject_Z 0)).
      + rewrite fl_integer by (cbn; lia). apply Qle_refl.
      + apply fl_monotone. change (inject_Z 0) with 0. lra.
    - apply Qle_trans with (fl (QueueItem.size item)).
      + apply fl_monotone. lra.
      + rewrite Hrep. apply Qle_refl. }
  destruct (ratio_between d (QueueItem.size item) Hpos (proj1 Hd) (proj2 Hd))
    as [Hq0 Hq1].
  destruct (fl_between (d / QueueItem.size item) 1 ltac:(cbn; lia) Hq0 Hq1)
    as [Hr0 Hr1].
  set (q := fl (d / QueueItem.size item)) in *.
  destruct (fl_between (q * 100) 100 ltac:(cbn; lia)) as [Hp0 Hp1];
    [lra | change (inject_Z 100) with 100; change (inject_Z 1) with 1 in Hr1;
           lra |].
  set (progress := fl (q * 100)) in *.
  change (inject_Z 100) with 100 in Hp1.
  destruct (fl_between (progress * 100) 10000 ltac:(cbn; lia)) as [Hs0 Hs1];
    [lra | change (inject_Z 10000) with 10000; lra |].
  destruct (Math_round_between (fl (progress * 100)) 10000 Hs0 Hs1)
    as (k & Ek & Hk).
  rewrite Ek.
  assert (Hk0 : 0 <= inject_Z k) by (change 0 with (inject_Z 0);
                                     rewrite <- Zle_Qle; lia).
  assert (Hk1 : inject_Z k <= 10000) by (change 10000 with (inject_Z 10000);
                                         rewrite <- Zle_Qle; lia).
  change 100 with (inject_Z 100) at 2.
  apply (fl_between (inject_Z k / 100) 100 ltac:(cbn; lia)).
  - apply Qle_shift_div_l; [reflexivity | lra].
  - change (inject_Z 100) with 100.
    apply Qle_shift_div_r; [reflexivity | lra].
Qed.

Lemma calculateSeriesProgress_in_range (st : SeriesStatistics.t) :
  0 < SeriesStatistics.totalEpisodeCount st ->
  0 <= SeriesStatistics.episodeFileCount st ->
  SeriesStatistics.episodeFileCount st
  <= SeriesStatistics.totalEpisodeCount st ->
  exists k : Z,
    calculateSeriesProgress fl (Some st) = inject_Z k /\ (0 <= k <= 100)%Z.
Proof.
  intros Hpos Hfile Hle.
  assert (Hnz : ~ SeriesStatistics.totalEpisodeCount st == 0) by lra.
  unfold calculateSeriesProgress.
  destruct (Qeq_bool (SeriesStatistics.totalEpisodeCount st) 0) eqn:E;
    [apply Qeq_bool_iff in E; contradiction|].
  destruct (ratio_between _ _ Hpos Hfile Hle) as [Hq0 Hq1].
  destruct (fl_between _ 1 ltac:(cbn; lia) Hq0 Hq1) as [Hr0 Hr1].
  change (inject_Z 1) with 1 in Hr1.
  set (q := fl (SeriesStatistics.episodeFileCount st
                / SeriesStatistics.totalEpisodeCount st)) in *.
  destruct (fl_between (q * 100) 100 ltac:(cbn; lia)) as [Hp0 Hp1];
    [lra | change (inject_Z 100) with 100; lra |].
  exact (Math_round_between (fl (q * 100)) 100 Hp0 Hp1).
Qed.

End MonotoneRounding.

(** X14: for every monotone rounding that leaves integers up to 2^53 and
    the size itself alone, the download progress of an item with a positive
    size and [0 <= sizeleft <= size] lies between 0 and 100. *)
Theorem X14_download_progress_in_range (fl : Q -> Q) (item : QueueItem.t) :
  (forall x y, x <= y -> fl x <= fl y) ->
  (forall z : Z, (Z.abs z <= 2 ^ 53)%Z -> fl (inject_Z z) == inject_Z z) ->
  fl (QueueItem.size item) == QueueItem.size item ->
  0 < QueueItem.size item ->
  0 <= QueueItem.sizeleft item ->
  QueueItem.sizeleft item <= QueueItem.size item ->
  0 <= getDownloadProgress fl item /\ getDownloadProgress fl item <= 100.
Proof.
  intros Hmono Hint. apply getDownloadProgress_in_range; assumption.
Qed.

Lemma X14_download_progress_in_range_witness :
  0 <= getDownloadProgress exact item_downloading
  /\ getDownloadProgress exact item_downloading <= 100.
Proof.
  apply (X14_download_progress_in_range exact item_downloading
           (fun x y H => H) (fun z _ => Qeq_refl (inject_Z z))
           (Qeq_refl 1000)).
  - reflexivity.
  - discriminate.
  - discriminate.
Defined.

(** X15: [calculateSeriesProgress] is 0 for a series without statistics or
    with no episodes at all; and for every monotone rounding that leaves
    integers up to 2^53 alone, with [0 <= episodeFileCount <=
    totalEpisodeCount] and a positive total it is a whole number between 0
    and 100. *)
Theorem X15_series_progress_in_range (fl : Q -> Q)
  (statistics : option SeriesStatistics.t) :
  (forall x y, x <= y -> fl x <= fl y) ->
  (forall z : Z, (Z.abs z <= 2 ^ 53)%Z -> fl (inject_Z z) == inject_Z z) ->
  (statistics = None -> calculateSeriesProgress fl statistics = 0)
  /\ (forall st,
        statistics = Some st ->
        (SeriesStatistics.totalEpisodeCount st == 0 ->
         calculateSeriesProgress fl statistics = 0)
        /\ (0 < SeriesStatistics.totalEpisodeCount st ->
            0 <= SeriesStatistics.episodeFileCount st ->
            SeriesStatistics.episodeFileCount st
            <= SeriesStatistics.totalEpisodeCount st ->
            exists k : Z,
              calculateSeriesProgress fl statistics = inject_Z k
              /\ (0 <= k <= 100)%Z)).
Proof.
  intros Hmono Hint. split.
  - intros ->. reflexivity.
  - intros st ->. split.
    + intros E. unfold calculateSeriesProgress.
      apply Qeq_bool_iff in E. rewrite E. reflexivity.
    + apply calculateSeriesProgress_in_range; assumption.
Qed.

Lemma X15_series_progress_in_range_witness :
  exists k : Z,
    calculateSeriesProgress exact (Some statistics_half) = inject_Z k
    /\ (0 <= k <= 100)%Z.
Proof.
  apply (proj2 (proj2 (X15_series_progress_in_range exact
                         (Some statistics_half)
                         (fun x y H => H)
                         (fun z _ => Qeq_refl (inject_Z z)))
                  statistics_half eq_refl)).
  - reflexivity.
  - discriminate.
  - discriminate.
Defined.

(** ** Timers of the queue view *)

(** X16: the queue view never leaks a timer.  Along every sequence of
    renders, ticks, refreshes and a final dismissal, each interval that is
    cleared was registered before, and the number of registered intervals at
    the end is one while the view is polling and zero when it is idle or
    dismissed. *)
Theorem X16_no_timer_leak (inputs : list Input) (r : option View)
  (out : list Output) :
  run unmounted_view inputs = Some (r, out) ->
  timers_after 0 out = Some (timers_of r)
  /\ (r = None -> timers_after 0 out = Some 0%nat)
  /\ (timers_of r <= 1)%nat.
Proof.
  intros Hrun. pose proof (run_timers inputs unmounted_view r out Hrun) as H.
  cbn [timers_of unmounted_view poll] in H.
  split; [exact H|]. split.
  - intros ->. exact H.
  - destruct r as [[q [|t]]|]; cbn; lia.
Qed.

Lemma X16_no_timer_leak_witness :
  timers_after 0
    [SetInterval refresh_timer; Mutate; ClearInterval refresh_timer;
     SetInterval refresh_timer; ClearInterval refresh_timer]
  = Some 0%nat.
Proof.
  apply (proj1 (proj2 (X16_no_timer_leak
           [Render (Some [item_downloading]); Tick;
            Render (Some [item_downloading; item_completed]); Unmount]
           None
           [SetInterval refresh_timer; Mutate; ClearInterval refresh_timer;
            SetInterval refresh_timer; ClearInterval refresh_timer]
           eq_refl))).
  reflexivity.
Defined.

(** ** Endpoints of the tracked reads *)

Lemma form_urlencode_digits (d : Decimal.uint) :
  form_urlencode (NilEmpty.string_of_uint d) = NilEmpty.string_of_uint d.
Proof.
  induction d; cbn [NilEmpty.string_of_uint form_urlencode];
    [reflexivity|..]; rewrite IHd; reflexivity.
Qed.

Lemma form_urlencode_show_Z (z : Z) : form_urlencode (show_Z z) = show_Z z.
Proof.
  unfold show_Z, NilZero.string_of_int, NilZero.string_of_uint.
  destruct (Z.to_int z) as [d|d].
  - destruct d; try reflexivity; apply form_urlencode_digits.
  - destruct d; try reflexivity;
      cbn [form_urlencode]; change (form_unreserved "-") with true;
      cbv iota; f_equal; apply form_urlencode_digits.
Qed.

(** X17: the calendar endpoint always has a query and always ends with the
    four flags [includeSeries], [includeEpisodeFile], [includeEpisodeImages]
    and [unmonitored] set to [true]; the branch for an empty query is never
    taken.  [start] and [end] come first, in that order, form-encoded, each
    only when it is given and non-empty. *)
Theorem X17_calendar_endpoint (start end_ : option string) :
  useCalendar_endpoint start end_
  = ("/calendar?"
     ++ (if truthy start
         then "start=" ++ form_urlencode (str start) ++ "&" else "")
     ++ (if truthy end_
         then "end=" ++ form_urlencode (str end_) ++ "&" else "")
     ++ calendar_flags)%string.
Proof.
  unfold useCalendar_endpoint, with_query.
  destruct (truthy start), (truthy end_);
    cbn -[form_urlencode]; rewrite ?append_assoc; reflexivity.
Qed.

(** X18: the history endpoint is the unfiltered "/history" when no series
    id is given or the id is 0, which the truthiness test treats like a
    missing one; every other integer id [n] of magnitude up to [2 ^ 53],
    where the conversion to text prints every digit, gives
    "/history?seriesId=n", which is not the unfiltered endpoint. *)
Theorem X18_history_endpoint (seriesId : option Z) :
  (seriesId = None \/ seriesId = Some 0%Z ->
   useHistory_endpoint seriesId = "/history")
  /\ (forall n, seriesId = Some n -> n <> 0%Z ->
      (Z.abs n <= 2 ^ 53)%Z ->
      useHistory_endpoint seriesId
      = ("/history?seriesId=" ++ show_Z n)%string
      /\ useHistory_endpoint seriesId <> "/history").
Proof.
  assert (Hn : forall n, n <> 0%Z ->
               useHistory_endpoint (Some n)
               = ("/history?seriesId=" ++ show_Z n)%string).
  { intros n H. unfold useHistory_endpoint, truthy_Z.
    apply Z.eqb_neq in H. rewrite H. cbn [negb params_set].
    unfold with_query, params_toString. cbn [map fst snd String.concat].
    rewrite form_urlencode_show_Z. reflexivity. }
  split.
  - intros [->| ->]; reflexivity.
  - intros n -> H _. rewrite (Hn n H). split; [reflexivity|].
    intros E. discriminate E.
Qed.

Lemma X18_history_endpoint_witness :
  useHistory_endpoint (Some 12%Z) = "/history?seriesId=12".
Proof.
  apply (proj2 (X18_history_endpoint (Some 12%Z)) 12%Z eq_refl).
  - discriminate.
  - discriminate.
Defined.

(** ** The search term in the request *)

Lemma hex_digit_unreserved (k : nat) :
  (k < 16)%nat -> uri_unreserved (hex_digit k) = true.
Proof.
  intros H.
  do 16 (destruct k as [|k]; [reflexivity|]). lia.
Qed.

Lemma encodeURIComponent_chars (s : string) (c : ascii) :
  In c (list_ascii_of_string (encodeURIComponent s)) ->
  uri_unreserved c = true \/ c = "%"%char.
Proof.
  induction s as [|a s IH]; [intros []|].
  cbn [encodeURIComponent].
  destruct (uri_unreserved a) eqn:Ha.
  - intros [<-|Hin]; [auto | exact (IH Hin)].
  - pose proof (nat_ascii_bounded a) as Hb.
    intros [<-|[<-|[<-|Hin]]]; [auto| | |exact (IH Hin)]; left;
      apply hex_digit_unreserved.
    + apply Nat.Div0.div_lt_upper_bound. exact Hb.
    + apply Nat.mod_upper_bound. discriminate.
Qed.

(** X19: a search term cannot change the shape of the lookup request.  The
    URL is the lookup endpoint followed by the encoded term, and the encoded
    term consists of letters, digits, [- _ . ! ~ * ' ( )] and [%] only: it
    contains no [&], [#], [?], [=], [/], [+] or space, whatever the user
    types. *)
Theorem X19_search_term_is_inert (instance : SonarrInstance) (query : string) :
  exists term,
    Request.target (searchSeries_request instance query)
    = (url instance ++ "/api/v3/series/lookup?term=" ++ term)%string
    /\ (forall c, In c (list_ascii_of_string term) ->
        uri_unreserved c = true \/ c = "%"%char)
    /\ (forall c, In c ["&"; "#"; "?"; "="; "/"; "+"; " "]%char ->
        ~ In c (list_ascii_of_string term)).
Proof.
  exists (encodeURIComponent query). split; [reflexivity|].
  split; [apply encodeURIComponent_chars|].
  intros c Hc Hin. apply encodeURIComponent_chars in Hin.
  repeat (destruct Hc as [<-|Hc]; [destruct Hin as [E|E]; discriminate E|]).
  destruct Hc.
Qed.

Lemma X19_search_term_is_inert_witness :
  exists term,
    Request.target (searchSeries_request instance_main "a&b=c #1")
    = ("http://localhost:8989" ++ "/api/v3/series/lookup?term=" ++ term)%string
    /\ ~ In "&"%char (list_ascii_of_string term).
Proof.
  destruct (X19_search_term_is_inert instance_main "a&b=c #1")
    as (term & E & _ & H).
  exists term. split; [exact E|]. apply H. left. reflexivity.
Defined.

(** ** Names in the registry *)

(** X20: the registry does not make instance names unique.  The names of
    the listed instances are pairwise distinct exactly when only the primary
    is listed or the two configured names differ; a secondary that was given
    the primary's name is listed all the same. *)
Theorem X20_instance_names (p : Preferences)
  (instances : list SonarrInstance) :
  getSonarrInstances p = Return instances ->
  (NoDup (map name instances)
   <-> List.length instances = 1%nat
       \/ str (primaryInstanceName p) <> str (secondaryInstanceName p)).
Proof.
  intros E.
  destruct (primary_complete p) eqn:Hp;
    [|rewrite (getSonarrInstances_incomplete p Hp) in E; discriminate E].
  rewrite (getSonarrInstances_complete p Hp) in E. injection E as <-.
  destruct (truthy_bool (enableSecondaryInstance p) && secondary_complete p).
  - cbn [map List.length name primary_instance secondary_instance]. split.
    + intros H. right. inversion H as [|x l Hnot _]; subst.
      intros Eq. apply Hnot. left. symmetry. exact Eq.
    + intros [H|H]; [discriminate H|].
      constructor; [intros [Eq|[]]; apply H; symmetry; exact Eq|].
      constructor; [intros []|constructor].
  - cbn [map List.length]. split; [auto|]. intros _.
    constructor; [intros []|constructor].
Qed.

Lemma X20_instance_names_witness :
  ~ NoDup (map name [primary_instance prefs_same_name;
                     secondary_instance prefs_same_name]).
Proof.
  intros H.
  apply (X20_instance_names prefs_same_name
           [primary_instance prefs_same_name;
            secondary_instance prefs_same_name] eq_refl) in H.
  destruct H as [H|H]; [discriminate H | apply H; reflexivity].
Defined.

(** ** A search that succeeds *)

(** X21: with a usable instance, [searchSeries] shows a toast exactly when
    the search failed.  A success status with an array body returns the
    elements of the array as they are; a success status with a body that
    parses but is not an array returns the empty sequence without a toast
    or a log entry, like a search without results. *)
Theorem X21_searchSeries_success (net : Network) (inst : SonarrInstance)
  (query : string) (response : Response.t) :
  invalid_instance (Some inst) = false ->
  net (searchSeries_request inst query) = Responds response ->
  Response.ok response = true ->
  (toasts (fst (searchSeries net (Some inst) query)) = []
   <-> search_fails net inst query = false)
  /\ (forall elements,
        Response.json response = Return (JArray elements) ->
        searchSeries net (Some inst) query
        = ([Fetch (searchSeries_request inst query)], Return elements))
  /\ (forall raw,
        Response.json response = Return (JOther raw) ->
        searchSeries net (Some inst) query
        = ([Fetch (searchSeries_request inst query)], Return [])).
Proof.
  intros H Hnet Hok. unfold searchSeries, search_fails.
  rewrite H. eff_unfold. rewrite Hnet, Hok. cbn [negb orb].
  destruct (Response.json response) as [[els|raw]|e].
  - split; [split; reflexivity|].
    split; [intros ? E; injection E as <-; reflexivity|].
    intros ? E; discriminate E.
  - split; [split; reflexivity|].
    split; [intros ? E; discriminate E|].
    intros ? E. reflexivity.
  - split; [split; intros E; discriminate E|].
    split; intros ? E; discriminate E.
Qed.

Lemma X21_searchSeries_success_witness :
  searchSeries net_object (Some instance_main) "dark"
  = ([Fetch (searchSeries_request instance_main "dark")], Return []).
Proof.
  apply (proj2 (proj2 (X21_searchSeries_success net_object instance_main
                         "dark"
                         {| Response.status := 200;
                            Response.statusText := "OK";
                            Response.text := Return "{}";
                            Response.json := Return (JOther "{}") |}
                         eq_refl eq_refl eq_refl)) "{}").
  reflexivity.
Defined.
